(** * plot.py: scrollable multichannel EEG + ECG plot

    A shallow embedding of [src/plot.py] and the properties of its loader,
    channel classifier, normaliser and figure builder.

    Modelling conventions.
    - Python [str] is [string]; [in] on a list or an Index is list
      membership, [in] on a [set] is [gset] membership.
    - A numeric cell is an int64 ([Z], arithmetic wraps around) or a
      binary64 float (Rocq's primitive [float], the same IEEE 754 format);
      the missing value is NaN.  A [Series] is the list of its cells; it has
      dtype int64 when every cell is an integer and float64 otherwise, as
      [pd.read_csv] infers it (the cells of a column it reads are all of one
      kind).  Columns of other dtypes (text, bool) are not modelled: on them
      the arithmetic of [build_figure] can raise [TypeError], so what is
      stated of a figure is stated of the figures [build_figure] returns.
    - A [DataFrame] is its column labels, its row labels and its rows.
    - Printing, [sys.exit] and exceptions are threaded through a small
      output-and-error monad [Py]; what lies outside the script (the file
      system, [pd.read_csv], the plotly viewer) is the record [World].
      [main] is taken from the point where [parse_args] has returned. *)

From Stdlib Require Import Ascii ZArith Floats.
From stdpp Require Import base decidable option list numbers strings gmap.

Local Open Scope string_scope.
Local Open Scope list_scope.

(** ** Python strings *)

Module Str.

(** [str.lower] on one character: only [A]..[Z] change. *)
Definition lower_ascii (c : ascii) : ascii :=
  let n := nat_of_ascii c in
  if (65 <=? n)%nat && (n <=? 90)%nat then ascii_of_nat (n + 32) else c.

(** [s.lower()]. *)
Fixpoint lower (s : string) : string :=
  match s with
  | EmptyString => EmptyString
  | String c s' => String (lower_ascii c) (lower s')
  end.

(** [s.startswith(p)]. *)
Definition startswith (s p : string) : bool := String.prefix p s.

(** The character [dq] is the double quote. *)
Definition dq : ascii := ascii_of_nat 34.

Fixpoint contains (c : ascii) (s : string) : bool :=
  match s with
  | EmptyString => false
  | String a s' => Ascii.eqb c a || contains c s'
  end.

Definition hex_digit (n : nat) : ascii :=
  if (n <? 10)%nat then ascii_of_nat (48 + n) else ascii_of_nat (87 + n).

(** One character inside [repr(s)], [q] being the quote chosen: the quote
    and the backslash are escaped, control characters are written as
    escapes, everything else stands for itself (bytes above 127, the UTF-8
    encoding of non-ASCII characters, are taken as printable). *)
Definition repr_char (q c : ascii) : string :=
  let n := nat_of_ascii c in
  if Ascii.eqb c q || Ascii.eqb c "\" then String "\" (String c EmptyString)
  else if (n =? 9)%nat then "\t"
  else if (n =? 10)%nat then "\n"
  else if (n =? 13)%nat then "\r"
  else if (n <? 32)%nat || (n =? 127)%nat
       then String "\" (String "x" (String (hex_digit (n / 16))
                                    (String (hex_digit (n mod 16)) EmptyString)))
  else String c EmptyString.

Fixpoint repr_body (q : ascii) (s : string) : string :=
  match s with
  | EmptyString => EmptyString
  | String c s' => repr_char q c +:+ repr_body q s'
  end.

(** [repr(s)]: single quotes, unless [s] holds a single quote and no double
    quote. *)
Definition repr (s : string) : string :=
  let q := if contains "'" s && negb (contains dq s) then dq else "'"%char in
  String q (repr_body q s +:+ String q EmptyString).

End Str.

(** ** The Python run time: printing, exceptions, [sys.exit] *)

(** An exception object: its class and [str(e)]. *)
Record exn := Exn { exn_class : string; exn_msg : string }.

Inductive stream := Stdout | Stderr.

#[global] Instance stream_eq_dec : EqDecision stream.
Proof. solve_decision. Defined.

(** One argument of a [print] call. *)
Inductive printed :=
| PStr (s : string)
| PList (l : list string).

(** A [print] call: the stream and the arguments, in order. *)
Record event := Print { ev_stream : stream; ev_items : list printed }.

(** How a computation ends: a value, an exception that propagates, or
    [SystemExit] raised by [sys.exit(code)]. *)
Inductive result (A : Type) :=
| Ok (a : A)
| Raise (e : exn)
| SysExit (code : Z).
Arguments Ok {A} a.
Arguments Raise {A} e.
Arguments SysExit {A} code.

(** A computation: what it printed, and how it ended. *)
Definition Py (A : Type) : Type := list event * result A.

Definition py_ret {A} (a : A) : Py A := ([], Ok a).

Definition py_bind {A B} (f : A → Py B) (m : Py A) : Py B :=
  match m with
  | (out, Ok a) => let '(out', r) := f a in (out ++ out', r)
  | (out, Raise e) => (out, Raise e)
  | (out, SysExit c) => (out, SysExit c)
  end.

#[global] Instance Py_ret : MRet Py := @py_ret.
#[global] Instance Py_bind : MBind Py := @py_bind.

Definition print (s : stream) (items : list printed) : Py unit :=
  ([Print s items], Ok tt).

Definition raise {A} (e : exn) : Py A := ([], Raise e).

Definition sys_exit {A} (code : Z) : Py A := ([], SysExit code).

(** [try: body except Exception as e: handler e].  [SystemExit] is not an
    [Exception] and passes through. *)
Definition try_except {A} (body : Py A) (handler : exn → Py A) : Py A :=
  match body with
  | (out, Raise e) => let '(out', r) := handler e in (out ++ out', r)
  | other => other
  end.

(** [for x in l: body x], keeping the results. *)
Fixpoint for_each {A B} (body : A → Py B) (l : list A) : Py (list B) :=
  match l with
  | [] => mret []
  | a :: l' => b ← body a; bs ← for_each body l'; mret (b :: bs)
  end.

(** The exit status of the interpreter: 0 when the script runs to its end,
    the argument of [sys.exit], and 1 after an uncaught exception. *)
Definition exit_status {A} (r : result A) : Z :=
  match r with
  | Ok _ => 0
  | Raise _ => 1
  | SysExit c => c
  end.

(** ** pandas: Series and DataFrame *)

Module Pd.

(** A cell of a numeric column: an int64 or a binary64 float. *)
Inductive cell :=
| CInt (z : Z)
| CFloat (f : float).

(** A Series: its cells in row order. *)
Abbreviation Series := (list cell) (only parsing).

(** NaN, the missing value. *)
Definition nan : cell := CFloat PrimFloat.nan.

Definition is_int (c : cell) : bool :=
  match c with CInt _ => true | CFloat _ => false end.

(** The dtype: int64 when every cell is an integer, float64 otherwise. *)
Definition is_int64 (s : Series) : bool := forallb is_int s.

(** int64 arithmetic is modulo [2^64], in [-2^63, 2^63). *)
Definition wrap64 (z : Z) : Z := ((z + 2 ^ 63) `mod` 2 ^ 64 - 2 ^ 63)%Z.

(** [float(z)]: the nearest binary64, ties to even. *)
Definition of_int (z : Z) : float := SF2Prim (binary_normalize prec emax z 0 false).

(** The value of a cell in a float64 operation. *)
Definition to_float (c : cell) : float :=
  match c with CInt z => of_int z | CFloat f => f end.

(** [pd.isna(c)] for a scalar. *)
Definition isna (c : cell) : bool :=
  match c with CInt _ => false | CFloat f => PrimFloat.is_nan f end.

Definition fmin (a b : float) : float := if (b <? a)%float then b else a.
Definition fmax (a b : float) : float := if (a <? b)%float then b else a.

(** The integers of an int64 series. *)
Definition ints (s : Series) : list Z :=
  omap (λ c, match c with CInt z => Some z | CFloat _ => None end) s.

(** The non-missing values of a float64 series, in order. *)
Definition present (s : Series) : list float :=
  filter (λ f, PrimFloat.is_nan f = false) (to_float <$> s).

(** [series.min()] and [series.max()] skip missing values and are NaN when
    nothing is left. *)
Definition min (s : Series) : cell :=
  if is_int64 s then
    match ints s with
    | [] => nan
    | z :: zs => CInt (foldl Z.min z zs)
    end
  else
    match present s with
    | [] => nan
    | f :: fs => CFloat (foldl fmin f fs)
    end.

Definition max (s : Series) : cell :=
  if is_int64 s then
    match ints s with
    | [] => nan
    | z :: zs => CInt (foldl Z.max z zs)
    end
  else
    match present s with
    | [] => nan
    | f :: fs => CFloat (foldl fmax f fs)
    end.

(** [a == b] and [a - b] for two scalars: in int64 when both are integers,
    in binary64 otherwise (NaN equals nothing, itself included). *)
Definition eqb (a b : cell) : bool :=
  match a, b with
  | CInt x, CInt y => (x =? y)%Z
  | _, _ => (to_float a =? to_float b)%float
  end.

Definition sub_scalar (a b : cell) : cell :=
  match a, b with
  | CInt x, CInt y => CInt (wrap64 (x - y))
  | _, _ => CFloat (to_float a - to_float b)%float
  end.

(** [series * k] and [k * series] for a float [k]: elementwise, in binary64. *)
Definition mul (s : Series) (k : float) : Series :=
  (λ c, CFloat (to_float c * k)%float) <$> s.

Definition rmul (k : float) (s : Series) : Series :=
  (λ c, CFloat (k * to_float c)%float) <$> s.

(** [series - k]: elementwise, in int64 when the series and [k] are integers,
    in binary64 otherwise. *)
Definition sub (s : Series) (k : cell) : Series :=
  if is_int64 s && is_int k
  then (λ c, sub_scalar c k) <$> s
  else (λ c, CFloat (to_float c - to_float k)%float) <$> s.

(** [series / k]: true division, elementwise, in binary64. *)
Definition div (s : Series) (k : cell) : Series :=
  (λ c, CFloat (to_float c / to_float k)%float) <$> s.

(** [columns] are the column labels, [index] the row labels; each row
    holds one cell per column (a cell a row lacks reads as NaN). *)
Record DataFrame := {
  columns : list string;
  index : list Z;
  rows : list (list cell)
}.

(** Position of the first column labelled [ch]. *)
Definition get_loc (df : DataFrame) (ch : string) : option nat :=
  fst <$> list_find (λ c, c = ch) (columns df).

(** [df[ch]]: the column as a Series, [KeyError(ch)] when there is none
    ([str] of a [KeyError] is the [repr] of its key). *)
Definition getitem (df : DataFrame) (ch : string) : Py Series :=
  match get_loc df ch with
  | Some j => mret ((λ r, default nan (r !! j)) <$> rows df)
  | None => raise (Exn "KeyError" (Str.repr ch))
  end.

(** Python's [l[::step]] for [step >= 1]: positions 0, step, 2*step, ...
    [skip] counts the elements still to pass over before the next kept one. *)
Fixpoint slice_step {A} (skip step : nat) (l : list A) : list A :=
  match l with
  | [] => []
  | a :: l' =>
      match skip with
      | O => a :: slice_step (step - 1) step l'
      | S k => slice_step k step l'
      end
  end.

(** [df.iloc[::step, :]]: every [step]-th row, with its label. *)
Definition iloc_step (df : DataFrame) (step : nat) : DataFrame :=
  {| columns := columns df;
     index := slice_step 0 step (index df);
     rows := slice_step 0 step (rows df) |}.

(** [df.reset_index(drop=True)]: row labels 0, 1, 2, ... *)
Definition reset_index (df : DataFrame) : DataFrame :=
  {| columns := columns df;
     index := Z.of_nat <$> seq 0 (length (rows df));
     rows := rows df |}.

(** [df.drop(columns=labels, errors="ignore")]: every column whose label is
    listed goes, from the labels and from each row. *)
Definition drop (df : DataFrame) (labels : list string) : DataFrame :=
  let keep (c : string) := negb (bool_decide (c ∈ labels)) in
  {| columns := filter (λ c, keep c = true) (columns df);
     index := index df;
     rows := (λ r, snd <$> filter (λ cv, keep (fst cv) = true) (zip (columns df) r)) <$> rows df |}.

End Pd.

(** ** The classification tables *)

Definition EEG_CANDIDATES : list string :=
  [ "Fz"; "Cz"; "P3"; "C3"; "F3"; "F4"; "C4"; "P4";
    "Fp1"; "Fp2"; "T3"; "T4"; "T5"; "T6"; "O1"; "O2";
    "F7"; "F8"; "A1"; "A2"; "Pz" ].

Definition IGNORE_EXACT : gset string :=
  list_to_set
    [ "Trigger"; "Time_Offset"; "ADC_Status"; "ADC_Sequence"; "Event"; "Comments" ].

(** [is_ignored_column]: exact ignore set, or an [X3:] prefix in either case. *)
Definition is_ignored_column (col : string) : bool :=
  if bool_decide (col ∈ IGNORE_EXACT) then true
  else if Str.startswith col "X3:" || Str.startswith (Str.lower col) "x3:" then true
  else false.

(** ** The script *)

(** The command line after [parse_args]. *)
Record Args := {
  csv : string;
  html_out : option string;
  downsample : Z;
  no_ecg : bool;
  no_cm : bool;
  normalize : bool
}.

(** One [go.Scatter] trace and where [add_trace] puts it.  Line width,
    colour and opacity are not modelled. *)
Record Scatter := {
  x : Pd.Series;
  y : Pd.Series;
  name : string;
  row : nat;
  secondary_y : bool
}.

Record Figure := {
  traces : list Scatter;
  xaxis_title : string;
  yaxis_eeg_title : string;
  yaxis_ecg_title : string;
  yaxis_cm_title : string
}.

(** What the script reaches outside itself. *)
Record World := {
  (** [str(Path(p))]: the path as pathlib writes it *)
  path_str : string → string;
  (** [Path(p).exists()] *)
  path_exists : string → bool;
  (** [pd.read_csv(p, comment="#")]: the table, or the exception it raises *)
  read_csv : string → exn + Pd.DataFrame;
  (** [Path(p).resolve()] *)
  resolve : string → string;
  (** [fig.write_html(p, ...)] and [fig.show()]: the exception raised, if any *)
  write_html : Figure → string → option exn;
  show : Figure → option exn
}.

Definition load_data (w : World) (csv_path : string) (downsample : Z) : Py Pd.DataFrame :=
  df ← try_except
         (match read_csv w csv_path with
          | inr df => mret df
          | inl e => raise e
          end)
         (λ e, print Stderr [PStr ("Failed to read CSV: " +:+ exn_msg e)];; raise e);
  let df :=
    if negb (downsample =? 0)%Z && (1 <? downsample)%Z
    then Pd.reset_index (Pd.iloc_step df (Z.to_nat downsample))
    else df in
  if negb (bool_decide ("Time" ∈ Pd.columns df))
  then raise (Exn "ValueError" "CSV must include a 'Time' column in seconds.")
  else mret df.

Definition detect_channels (df : Pd.DataFrame) (include_ecg include_cm : bool)
  : list string * list string * option string :=
  let eeg_channels := filter (λ c, c ∈ Pd.columns df) EEG_CANDIDATES in
  let ecg_channels :=
    if include_ecg then
      (if bool_decide ("X1:LEOG" ∈ Pd.columns df) then ["X1:LEOG"] else [])
      ++ (if bool_decide ("X2:REOG" ∈ Pd.columns df) then ["X2:REOG"] else [])
    else [] in
  let cm_channel :=
    if include_cm && bool_decide ("CM" ∈ Pd.columns df) then Some "CM" else None in
  (eeg_channels, ecg_channels, cm_channel).

Definition minmax_normalize (series : Pd.Series) : Pd.Series :=
  let s_min := Pd.min series in
  let s_max := Pd.max series in
  if Pd.isna s_min || Pd.isna s_max || Pd.eqb s_max s_min
  then Pd.mul series 0
  else Pd.sub
         (Pd.div (Pd.rmul 2 (Pd.sub series s_min)) (Pd.sub_scalar s_max s_min))
         (Pd.CFloat 1).

Definition build_figure (df : Pd.DataFrame) (eeg_channels ecg_channels : list string)
    (cm_channel : option string) (normalize : bool) : Py Figure :=
  time ← Pd.getitem df "Time";
  eeg ← for_each (λ ch,
           y ← Pd.getitem df ch;
           let '(y, name) :=
             if normalize then (minmax_normalize y, ch +:+ " (norm)") else (y, ch) in
           mret {| x := time; y := y; name := name; row := 1; secondary_y := false |})
         eeg_channels;
  ecg ← for_each (λ ch,
           y ← Pd.getitem df ch;
           let y := Pd.mul y 1000 in
           let '(y, name) :=
             if normalize then (minmax_normalize y, ch +:+ " (norm)") else (y, ch +:+ " (µV)") in
           mret {| x := time; y := y; name := name; row := 1; secondary_y := true |})
         ecg_channels;
  cm ← match cm_channel with
       | Some ch =>
           y ← Pd.getitem df ch;
           let '(y, name) :=
             if normalize then (minmax_normalize y, ch +:+ " (norm)") else (y, ch) in
           mret [{| x := time; y := y; name := name; row := 2; secondary_y := false |}]
       | None => mret []
       end;
  mret {| traces := eeg ++ ecg ++ cm;
          xaxis_title := "Time (s)";
          yaxis_eeg_title := if normalize then "EEG (normalized)" else "EEG (µV)";
          yaxis_ecg_title := if normalize then "ECG (normalized)" else "ECG (µV)";
          yaxis_cm_title := if normalize then "CM (normalized)" else "CM" |}.

(** Lines 203-205 of [main]: the ignored columns leave the table. *)
Definition drop_ignored (df : Pd.DataFrame) : Pd.DataFrame :=
  let drop_cols := filter (λ c, is_ignored_column c = true) (Pd.columns df) in
  match drop_cols with
  | [] => df
  | _ => Pd.drop df drop_cols
  end.

(** [main], from the point where [parse_args] has returned [args].  What
    argparse does with a command line it rejects, or with [--help], happens
    before and is not part of it. *)
Definition main (w : World) (args : Args) : Py unit :=
  let csv_path := path_str w (csv args) in
  (if negb (path_exists w csv_path)
   then print Stderr [PStr ("CSV not found: " +:+ csv_path)];; sys_exit 1
   else mret tt);;
  df ← load_data w csv_path (downsample args);
  let df := drop_ignored df in
  let '(eeg_channels, ecg_channels, cm_channel) :=
    detect_channels df (negb (no_ecg args)) (negb (no_cm args)) in
  (match eeg_channels, ecg_channels, cm_channel with
   | [], [], None =>
       print Stderr [PStr "No plottable channels detected. Please check your CSV headers."];;
       print Stderr [PStr "Columns found:"; PList (Pd.columns df)];;
       sys_exit 2
   | _, _, _ => mret tt
   end);;
  fig ← build_figure df eeg_channels ecg_channels cm_channel (normalize args);
  (match html_out args with
   | Some out =>
       if bool_decide (out = "") then mret tt
       else
         let out := path_str w out in
         (match write_html w fig out with Some e => raise e | None => mret tt end);;
         print Stdout [PStr ("Saved interactive HTML to: " +:+ resolve w out)]
   | None => mret tt
   end);;
  try_except
    (match show w fig with Some e => raise e | None => mret tt end)
    (λ e,
       print Stderr [PStr ("Unable to open viewer automatically: " +:+ exn_msg e)];;
       print Stdout [PStr "Tip: open the --html-out file in your browser."]).

(** ** Specification vocabulary *)

(** [m] is the least (greatest) element of [l], in the order of binary64. *)
Definition is_least (m : float) (l : list float) : Prop :=
  m ∈ l ∧ ∀ u, u ∈ l → (m <=? u)%float = true.

Definition is_greatest (m : float) (l : list float) : Prop :=
  m ∈ l ∧ ∀ u, u ∈ l → (u <=? m)%float = true.

(** The rescaling formula [2*(v - lo)/(hi - lo) - 1], each operation rounded
    to binary64. *)
Definition rescale (lo hi v : float) : float := (2 * (v - lo) / (hi - lo) - 1)%float.

(** The degenerate series: empty, only missing values, or maximum equal to
    minimum. *)
Definition degenerate (s : Pd.Series) : Prop :=
  s = [] ∨ (∀ c, c ∈ s → Pd.isna c = true) ∨ Pd.eqb (Pd.max s) (Pd.min s) = true.

(** A constant series: its non-missing cells all hold the same value. *)
Definition constant (s : Pd.Series) : Prop :=
  ∃ v, ∀ c, c ∈ s → Pd.isna c = true ∨ c = v.

(** A zero of binary64: [0.0] or [-0.0]. *)
Definition is_zero (c : Pd.cell) : Prop :=
  ∃ f, c = Pd.CFloat f ∧ (f =? 0)%float = true.

(** The name starts with [X3:], the [X] in either case. *)
Definition X3_prefixed (c : string) : bool :=
  match c with
  | String a (String b (String d _)) =>
      (Ascii.eqb a "X" || Ascii.eqb a "x") && Ascii.eqb b "3" && Ascii.eqb d ":"
  | _ => false
  end.

(** The column [ch] of [df] as [df[ch]] returns it. *)
Definition column_of (df : Pd.DataFrame) (ch : string) : Pd.Series :=
  match Pd.get_loc df ch with
  | Some j => (λ r, default Pd.nan (r !! j)) <$> Pd.rows df
  | None => []
  end.

(** ** Sample inputs *)

(** A cell of an int64 column and a cell of a float64 column. *)
Definition num (z : Z) : Pd.cell := Pd.CInt z.
Definition flt (z : Z) : Pd.cell := Pd.CFloat (Pd.of_int z).

Definition default_args : Args :=
  {| csv := "recording.csv"; html_out := None; downsample := 1;
     no_ecg := false; no_cm := false; normalize := false |}.

(** A world where the file is there, [read_csv] answers [r], and the viewer
    opens. *)
Definition world_reading (r : exn + Pd.DataFrame) : World :=
  {| path_str := λ p, p;
     path_exists := λ _, true;
     read_csv := λ _, r;
     resolve := λ p, p;
     write_html := λ _ _, None;
     show := λ _, None |}.

Definition world_without_file : World :=
  {| path_str := λ p, p;
     path_exists := λ _, false;
     read_csv := λ _, inl (Exn "FileNotFoundError" "No such file or directory");
     resolve := λ p, p;
     write_html := λ _ _, None;
     show := λ _, None |}.

Definition recording_df : Pd.DataFrame :=
  {| Pd.columns := ["Time"; "Fz"; "Cz"; "X1:LEOG"; "CM"; "Trigger"];
     Pd.index := [0; 1; 2; 3; 4]%Z;
     Pd.rows := [ [num 0; num 10; num 7; flt 2;  num 1; num 0];
                  [num 1; num 12; num 7; Pd.nan; num 1; num 0];
                  [num 2; num 11; num 7; flt 3;  num 4; num 1];
                  [num 3; num 14; num 7; flt 5;  num 2; num 0];
                  [num 4; num 13; num 7; flt 4;  num 3; num 0] ] |}.

(** Two recordings with a constant ECG column: one with a gap, one whose
    values leave the range of binary64 once multiplied by 1000. *)
Definition gapped_ecg_df : Pd.DataFrame :=
  {| Pd.columns := ["Time"; "X1:LEOG"];
     Pd.index := [0; 1; 2]%Z;
     Pd.rows := [[num 0; flt 2]; [num 1; Pd.nan]; [num 2; flt 2]] |}.

Definition huge_ecg_df : Pd.DataFrame :=
  {| Pd.columns := ["Time"; "X1:LEOG"];
     Pd.index := [0; 1]%Z;
     Pd.rows := [[num 0; Pd.CFloat 0x1p1015]; [num 1; Pd.CFloat 0x1p1015]] |}.

Definition no_time_df : Pd.DataFrame :=
  {| Pd.columns := ["t"; "Fz"]; Pd.index := [0]%Z; Pd.rows := [[num 0; num 1]] |}.

Definition no_signal_df : Pd.DataFrame :=
  {| Pd.columns := ["Time"; "Trigger"; "X3:Aux"];
     Pd.index := [0; 1]%Z;
     Pd.rows := [[num 0; num 0; num 5]; [num 1; num 1; num 6]] |}.

(** A world where the table [df] is read but no viewer can be opened. *)
Definition world_headless (df : Pd.DataFrame) : World :=
  {| path_str := λ p, p;
     path_exists := λ _, true;
     read_csv := λ _, inr df;
     resolve := λ p, "/home/user/" +:+ p;
     write_html := λ _ _, None;
     show := λ _, Some (Exn "Exception" "no display") |}.

(** A world where the table [df] is read but the export cannot be written. *)
Definition world_read_only (df : Pd.DataFrame) : World :=
  {| path_str := λ p, p;
     path_exists := λ _, true;
     read_csv := λ _, inr df;
     resolve := λ p, p;
     write_html := λ _ _, Some (Exn "PermissionError" "Permission denied");
     show := λ _, None |}.

Definition export_args : Args :=
  {| csv := "recording.csv"; html_out := Some "plot.html"; downsample := 1;
     no_ecg := false; no_cm := false; normalize := false |}.

(** The three fatal failures of the loading stage. *)
Inductive failure := InputNotFound | ParseError | ValidationError.

Inductive fails_with (w : World) (args : Args) : failure → Prop :=
| input_not_found :
    path_exists w (path_str w (csv args)) = false →
    fails_with w args InputNotFound
| parse_error (e : exn) :
    path_exists w (path_str w (csv args)) = true →
    read_csv w (path_str w (csv args)) = inl e →
    fails_with w args ParseError
| validation_error (df : Pd.DataFrame) :
    path_exists w (path_str w (csv args)) = true →
    read_csv w (path_str w (csv args)) = inr df →
    "Time" ∉ Pd.columns df →
    fails_with w args ValidationError.

(** A table is well formed when it has one label per row and every row has
    one cell per column. *)
Definition well_formed (df : Pd.DataFrame) : Prop :=
  length (Pd.index df) = length (Pd.rows df) ∧
  Forall (λ r, length r = length (Pd.columns df)) (Pd.rows df).

(** Lines 220-230 of [main]: the export, then the viewer. *)
Definition finish_run (w : World) (args : Args) (fig : Figure) : Py unit :=
  (match html_out args with
   | Some out =>
       if bool_decide (out = "") then mret tt
       else
         let out := path_str w out in
         (match write_html w fig out with Some e => raise e | None => mret tt end);;
         print Stdout [PStr ("Saved interactive HTML to: " +:+ resolve w out)]
   | None => mret tt
   end);;
  try_except
    (match show w fig with Some e => raise e | None => mret tt end)
    (λ e,
       print Stderr [PStr ("Unable to open viewer automatically: " +:+ exn_msg e)];;
       print Stdout [PStr "Tip: open the --html-out file in your browser."]).

(** The figure [build_figure] returns when no column it reads is missing. *)
Definition figure_of (df : Pd.DataFrame) (eeg_channels ecg_channels : list string)
    (cm_channel : option string) (normalize : bool) : Figure :=
  let time := column_of df "Time" in
  let finish (s : Pd.Series) := if normalize then minmax_normalize s else s in
  {| traces :=
       ((λ ch, {| x := time; y := finish (column_of df ch);
                  name := if normalize then ch +:+ " (norm)" else ch;
                  row := 1; secondary_y := false |}) <$> eeg_channels)
       ++ ((λ ch, {| x := time;
                     y := finish (Pd.mul (column_of df ch) 1000);
                     name := if normalize then ch +:+ " (norm)" else ch +:+ " (µV)";
                     row := 1; secondary_y := true |}) <$> ecg_channels)
       ++ ((λ ch, {| x := time; y := finish (column_of df ch);
                     name := if normalize then ch +:+ " (norm)" else ch;
                     row := 2; secondary_y := false |}) <$> option_list cm_channel);
     xaxis_title := "Time (s)";
     yaxis_eeg_title := if normalize then "EEG (normalized)" else "EEG (µV)";
     yaxis_ecg_title := if normalize then "ECG (normalized)" else "ECG (µV)";
     yaxis_cm_title := if normalize then "CM (normalized)" else "CM" |}.

(** * Properties *)

(** ** Binary64 *)

Section Float64.
Local Open Scope float_scope.

Lemma Prim2SF_nan : Prim2SF nan = S754_nan.
Proof. reflexivity. Qed.

Lemma is_nan_Prim2SF (x : float) : is_nan x = true ↔ Prim2SF x = S754_nan.
Proof.
  unfold is_nan. rewrite FloatAxioms.eqb_spec. split.
  - intros H. destruct (Prim2SF x) as [s | s | | s m e]; try done.
    + by destruct s.
    + exfalso. unfold SFeqb, SFcompare in H.
      destruct s; rewrite Z.compare_refl, Pos.compare_cont_refl in H; done.
  - by intros ->.
Qed.

Lemma is_nan_eq (x : float) : is_nan x = true ↔ x = nan.
Proof.
  rewrite is_nan_Prim2SF. split.
  - intros H. apply FloatAxioms.Prim2SF_inj. by rewrite H.
  - by intros ->.
Qed.

Lemma not_nan_Prim2SF (x : float) : is_nan x = false ↔ Prim2SF x ≠ S754_nan.
Proof.
  rewrite <- is_nan_Prim2SF. destruct (is_nan x); split; try done.
Qed.

Lemma sub_nan_l (y : float) : nan - y = nan.
Proof.
  apply FloatAxioms.Prim2SF_inj. rewrite FloatAxioms.sub_spec, Prim2SF_nan. reflexivity.
Qed.

Lemma div_nan_l (y : float) : nan / y = nan.
Proof.
  apply FloatAxioms.Prim2SF_inj. rewrite FloatAxioms.div_spec, Prim2SF_nan. reflexivity.
Qed.

Lemma mul_nan_l (y : float) : nan * y = nan.
Proof.
  apply FloatAxioms.Prim2SF_inj. rewrite FloatAxioms.mul_spec, Prim2SF_nan. reflexivity.
Qed.

Lemma mul_nan_r (x : float) : x * nan = nan.
Proof.
  apply FloatAxioms.Prim2SF_inj. rewrite FloatAxioms.mul_spec, Prim2SF_nan.
  by destruct (Prim2SF x).
Qed.

(** The finite floats, zeros included. *)
Lemma is_finite_Prim2SF (x : float) :
  is_finite x = true ↔
  match Prim2SF x with S754_zero _ | S754_finite _ _ _ => True | _ => False end.
Proof.
  unfold is_finite, is_infinity. rewrite negb_true_iff, orb_false_iff.
  rewrite FloatAxioms.eqb_spec, FloatAxioms.abs_spec.
  destruct (is_nan x) eqn:Hn.
  - apply is_nan_Prim2SF in Hn. rewrite Hn. split; [by intros [? _] | done].
  - apply not_nan_Prim2SF in Hn.
    change (Prim2SF infinity) with (S754_infinity false).
    destruct (Prim2SF x) as [s | s | | s m e]; simpl; [| | done |].
    + split; [done | intros _]. by split.
    + split; [| done]. by intros [_ H].
    + split; [done | intros _]. by split.
Qed.

Lemma is_infinity_Prim2SF (x : float) :
  is_infinity x = true ↔ ∃ s, Prim2SF x = S754_infinity s.
Proof.
  unfold is_infinity. rewrite FloatAxioms.eqb_spec, FloatAxioms.abs_spec.
  change (Prim2SF infinity) with (S754_infinity false).
  destruct (Prim2SF x) as [s | s | | s m e]; simpl; split;
    try done; try (by intros [? ?]); by eexists.
Qed.

(** A finite float times [0.0] is a zero; an infinite one is NaN. *)
Lemma mul_zero_finite (x : float) : is_finite x = true → (x * 0 =? 0) = true.
Proof.
  intros H%is_finite_Prim2SF.
  assert (∃ s, Prim2SF (x * 0) = S754_zero s) as [s Hs].
  { rewrite FloatAxioms.mul_spec. change (Prim2SF 0) with (S754_zero false).
    destruct (Prim2SF x) as [s | s | | s m e]; try done; by eexists. }
  rewrite FloatAxioms.eqb_spec, Hs. by destruct s.
Qed.

Lemma mul_zero_infinity (x : float) : is_infinity x = true → x * 0 = nan.
Proof.
  intros [s Hs]%is_infinity_Prim2SF. apply FloatAxioms.Prim2SF_inj.
  rewrite FloatAxioms.mul_spec, Hs. reflexivity.
Qed.

Lemma eqb_refl (x : float) : is_nan x = false → (x =? x) = true.
Proof. unfold is_nan. by intros ->%negb_false_iff. Qed.

Lemma leb_refl (x : float) : is_nan x = false → (x <=? x) = true.
Proof.
  intros H%not_nan_Prim2SF. rewrite FloatAxioms.leb_spec. unfold SFleb.
  destruct (Prim2SF x) as [sx | sx | | sx mx ex]; simpl; try done.
  - by destruct sx.
  - destruct sx; rewrite Z.compare_refl, Pos.compare_cont_refl; done.
Qed.

Lemma ltb_leb (x y : float) : (x <? y) = true → (x <=? y) = true.
Proof.
  rewrite FloatAxioms.ltb_spec, FloatAxioms.leb_spec. unfold SFltb, SFleb.
  by destruct (SFcompare (Prim2SF x) (Prim2SF y)) as [[]|].
Qed.

Lemma not_ltb_leb (x y : float) :
  is_nan x = false → is_nan y = false → (y <? x) = false → (x <=? y) = true.
Proof.
  intros Hx%not_nan_Prim2SF Hy%not_nan_Prim2SF.
  rewrite FloatAxioms.ltb_spec, FloatAxioms.leb_spec. unfold SFltb, SFleb.
  destruct (Prim2SF x) as [sx | sx | | sx mx ex],
           (Prim2SF y) as [sy | sy | | sy my ey]; simpl; try done;
    repeat match goal with s : bool |- _ => destruct s end; simpl; try done.
  all: rewrite ?Pos.compare_cont_spec; simpl.
  all: rewrite (Z.compare_antisym ex ey), (Pos.compare_antisym mx my).
  all: destruct (ex ?= ey)%Z; simpl; try done.
  all: destruct (mx ?= my)%positive; simpl; done.
Qed.

Lemma leb_trans (x y z : float) :
  (x <=? y) = true → (y <=? z) = true → (x <=? z) = true.
Proof.
  rewrite !FloatAxioms.leb_spec. unfold SFleb.
  destruct (Prim2SF x) as [sx | sx | | sx mx ex],
           (Prim2SF y) as [sy | sy | | sy my ey],
           (Prim2SF z) as [sz | sz | | sz mz ez]; simpl; try done;
    repeat match goal with s : bool |- _ => destruct s end; simpl; try done.
  all: rewrite ?Pos.compare_cont_spec; simpl.
  all: destruct (Z.compare_spec ex ey), (Z.compare_spec ey ez), (Z.compare_spec ex ez);
       try done; try lia; subst.
  all: destruct (Pos.compare_spec mx my), (Pos.compare_spec my mz), (Pos.compare_spec mx mz);
       simpl; try done; try lia.
Qed.

End Float64.

(** ** [Series.min] and [Series.max] *)

Section MinMax.
Local Open Scope float_scope.

Lemma isna_nan (c : Pd.cell) : Pd.isna c = true ↔ c = Pd.nan.
Proof.
  destruct c as [z | f]; simpl; [done |].
  rewrite is_nan_eq. split; [by intros -> | by intros [= ->]].
Qed.

Lemma elem_of_present (s : Pd.Series) v :
  v ∈ Pd.present s ↔ is_nan v = false ∧ ∃ c, v = Pd.to_float c ∧ c ∈ s.
Proof. unfold Pd.present. by rewrite list_elem_of_filter, list_elem_of_fmap. Qed.

Lemma present_not_nan (s : Pd.Series) : Forall (λ v, is_nan v = false) (Pd.present s).
Proof. apply Forall_forall. by intros v [H _]%elem_of_present. Qed.

Lemma present_nil (s : Pd.Series) :
  (∀ c, c ∈ s → Pd.isna c = true) → Pd.present s = [].
Proof.
  intros H. destruct (Pd.present s) as [|v vs] eqn:E; [done |].
  assert (v ∈ Pd.present s) as (Hv & c & -> & Hc)%elem_of_present by (rewrite E; left).
  apply H, isna_nan in Hc as ->. done.
Qed.

Lemma is_int64_elem (s : Pd.Series) (c : Pd.cell) :
  c ∈ s → Pd.is_int c = false → Pd.is_int64 s = false.
Proof.
  unfold Pd.is_int64. induction s as [|d s IH]; intros Hc Hf.
  - by apply elem_of_nil in Hc.
  - simpl. apply elem_of_cons in Hc as [<- | Hc]; [by rewrite Hf |].
    rewrite IH by done. apply andb_false_r.
Qed.

(** Without a number in the series, both are NaN. *)
Lemma min_max_all_missing (s : Pd.Series) :
  (∀ c, c ∈ s → Pd.isna c = true) → Pd.min s = Pd.nan ∧ Pd.max s = Pd.nan.
Proof.
  intros H. destruct s as [|c s]; [done |].
  assert (Pd.is_int64 (c :: s) = false) as Hi.
  { apply (is_int64_elem _ c); [left |].
    assert (c = Pd.nan) as -> by (apply isna_nan, H; left). done. }
  unfold Pd.min, Pd.max. by rewrite Hi, (present_nil _ H).
Qed.

Lemma fmin_cases (a b : float) :
  is_nan a = false → is_nan b = false →
  (Pd.fmin a b = a ∨ Pd.fmin a b = b) ∧
  (Pd.fmin a b <=? a) = true ∧ (Pd.fmin a b <=? b) = true.
Proof.
  intros Ha Hb. unfold Pd.fmin. destruct (b <? a) eqn:E.
  - split_and!; [by right | by apply ltb_leb | by apply leb_refl].
  - split_and!; [by left | by apply leb_refl | by apply not_ltb_leb].
Qed.

Lemma fmax_cases (a b : float) :
  is_nan a = false → is_nan b = false →
  (Pd.fmax a b = a ∨ Pd.fmax a b = b) ∧
  (a <=? Pd.fmax a b) = true ∧ (b <=? Pd.fmax a b) = true.
Proof.
  intros Ha Hb. unfold Pd.fmax. destruct (a <? b) eqn:E.
  - split_and!; [by right | by apply ltb_leb | by apply leb_refl].
  - split_and!; [by left | by apply leb_refl | by apply not_ltb_leb].
Qed.

Lemma foldl_fmin_least v vs :
  is_nan v = false → Forall (λ u, is_nan u = false) vs →
  is_least (foldl Pd.fmin v vs) (v :: vs).
Proof.
  revert v. induction vs as [|u vs IH]; intros v Hv Hvs; simpl.
  - split; [left |]. intros w ->%list_elem_of_singleton. by apply leb_refl.
  - apply Forall_cons in Hvs as [Hu Hvs].
    destruct (fmin_cases v u Hv Hu) as (Hm & Hlv & Hlu).
    assert (is_nan (Pd.fmin v u) = false) as Hn by (by destruct Hm as [-> | ->]).
    destruct (IH (Pd.fmin v u) Hn Hvs) as [Hin Hle].
    split.
    + apply elem_of_cons in Hin as [-> | Hin]; [| by do 2 right].
      destruct Hm as [-> | ->]; [left | right; left].
    + intros w Hw.
      assert ((foldl Pd.fmin (Pd.fmin v u) vs <=? Pd.fmin v u) = true) as H0
        by (apply Hle; left).
      apply elem_of_cons in Hw as [-> | Hw]; [by eapply leb_trans |].
      apply elem_of_cons in Hw as [-> | Hw]; [by eapply leb_trans |].
      apply Hle. by right.
Qed.

Lemma foldl_fmax_greatest v vs :
  is_nan v = false → Forall (λ u, is_nan u = false) vs →
  is_greatest (foldl Pd.fmax v vs) (v :: vs).
Proof.
  revert v. induction vs as [|u vs IH]; intros v Hv Hvs; simpl.
  - split; [left |]. intros w ->%list_elem_of_singleton. by apply leb_refl.
  - apply Forall_cons in Hvs as [Hu Hvs].
    destruct (fmax_cases v u Hv Hu) as (Hm & Hlv & Hlu).
    assert (is_nan (Pd.fmax v u) = false) as Hn by (by destruct Hm as [-> | ->]).
    destruct (IH (Pd.fmax v u) Hn Hvs) as [Hin Hle].
    split.
    + apply elem_of_cons in Hin as [-> | Hin]; [| by do 2 right].
      destruct Hm as [-> | ->]; [left | right; left].
    + intros w Hw.
      assert ((Pd.fmax v u <=? foldl Pd.fmax (Pd.fmax v u) vs) = true) as H0
        by (apply Hle; left).
      apply elem_of_cons in Hw as [-> | Hw]; [by eapply leb_trans |].
      apply elem_of_cons in Hw as [-> | Hw]; [by eapply leb_trans |].
      apply Hle. by right.
Qed.

(** On a float64 series with a number in it, [min] is the least non-missing
    value and [max] the greatest. *)
Lemma min_max_float (s : Pd.Series) :
  Pd.is_int64 s = false → Pd.present s ≠ [] →
  ∃ lo hi, Pd.min s = Pd.CFloat lo ∧ is_least lo (Pd.present s) ∧
           Pd.max s = Pd.CFloat hi ∧ is_greatest hi (Pd.present s).
Proof.
  intros Hi Hp. unfold Pd.min, Pd.max. rewrite Hi.
  pose proof (present_not_nan s) as Hn.
  destruct (Pd.present s) as [|v vs]; [done |].
  apply Forall_cons in Hn as [Hv Hvs].
  exists (foldl Pd.fmin v vs), (foldl Pd.fmax v vs).
  split_and!; [done | by apply foldl_fmin_least | done | by apply foldl_fmax_greatest].
Qed.

Lemma is_least_not_nan lo l :
  Forall (λ v, is_nan v = false) l → is_least lo l → is_nan lo = false.
Proof. intros H [Hin _]. by eapply Forall_forall in H. Qed.

Lemma is_greatest_not_nan hi l :
  Forall (λ v, is_nan v = false) l → is_greatest hi l → is_nan hi = false.
Proof. intros H [Hin _]. by eapply Forall_forall in H. Qed.

End MinMax.

(** ** Normalisation *)

Section Normalize.
Local Open Scope float_scope.

Lemma rescale_nan lo hi : rescale lo hi nan = nan.
Proof. unfold rescale. by rewrite sub_nan_l, mul_nan_r, div_nan_l, sub_nan_l. Qed.

(** The guard of [minmax_normalize] fires on every degenerate series. *)
Lemma minmax_normalize_flat (s : Pd.Series) :
  degenerate s → minmax_normalize s = Pd.mul s 0.
Proof.
  unfold minmax_normalize. intros [-> | [Hall | E]].
  - reflexivity.
  - destruct (min_max_all_missing s Hall) as [-> ->]. reflexivity.
  - rewrite E. by rewrite orb_true_r.
Qed.

(** Past the guard, a float64 series goes through the formula cell by cell. *)
Lemma minmax_normalize_rescale (s : Pd.Series) lo hi :
  Pd.is_int64 s = false →
  Pd.min s = Pd.CFloat lo → Pd.max s = Pd.CFloat hi →
  is_nan lo = false → is_nan hi = false → (hi =? lo) = false →
  minmax_normalize s = (λ c, Pd.CFloat (rescale lo hi (Pd.to_float c))) <$> s.
Proof.
  intros Hi Hlo Hhi Hnlo Hnhi Hne. unfold minmax_normalize. rewrite Hlo, Hhi. simpl.
  rewrite Hnlo, Hnhi, Hne. simpl.
  unfold Pd.sub. rewrite Hi, andb_false_r. simpl.
  unfold Pd.div, Pd.rmul. rewrite <- !list_fmap_compose.
  by apply list_fmap_ext.
Qed.

(** Whatever the branch, the result is a float64 series computed cell by
    cell, and NaN goes to NaN. *)
Lemma minmax_normalize_cells (s : Pd.Series) :
  ∃ g : Pd.cell → float,
    minmax_normalize s = (λ c, Pd.CFloat (g c)) <$> s ∧ g Pd.nan = nan.
Proof.
  unfold minmax_normalize.
  destruct (Pd.isna (Pd.min s) || Pd.isna (Pd.max s) || Pd.eqb (Pd.max s) (Pd.min s)).
  - exists (λ c, Pd.to_float c * 0). split; [done |]. apply mul_nan_l.
  - unfold Pd.sub. rewrite andb_false_r.
    destruct (Pd.is_int64 s && Pd.is_int (Pd.min s)).
    + exists (λ c, 2 * Pd.to_float (Pd.sub_scalar c (Pd.min s))
                   / Pd.to_float (Pd.sub_scalar (Pd.max s) (Pd.min s)) - 1).
      split.
      * unfold Pd.div, Pd.rmul. rewrite <- !list_fmap_compose. by apply list_fmap_ext.
      * assert (Pd.to_float (Pd.sub_scalar Pd.nan (Pd.min s)) = nan) as ->.
        { destruct (Pd.min s); simpl; apply sub_nan_l. }
        by rewrite mul_nan_r, div_nan_l, sub_nan_l.
    + exists (λ c, 2 * (Pd.to_float c - Pd.to_float (Pd.min s))
                   / Pd.to_float (Pd.sub_scalar (Pd.max s) (Pd.min s)) - 1).
      split.
      * unfold Pd.div, Pd.rmul. rewrite <- !list_fmap_compose. by apply list_fmap_ext.
      * simpl. by rewrite sub_nan_l, mul_nan_r, div_nan_l, sub_nan_l.
Qed.

(** The cells of [series * 0.0]. *)
Lemma mul_zero_cells (s : Pd.Series) (i : nat) (c : Pd.cell) :
  s !! i = Some c →
  (Pd.isna c = true → Pd.mul s 0 !! i = Some Pd.nan) ∧
  (is_finite (Pd.to_float c) = true → ∃ c', Pd.mul s 0 !! i = Some c' ∧ is_zero c') ∧
  (is_infinity (Pd.to_float c) = true → Pd.mul s 0 !! i = Some Pd.nan).
Proof.
  intros Hc. unfold Pd.mul. rewrite list_lookup_fmap, Hc. simpl. split_and!.
  - by intros ->%isna_nan.
  - intros Hf. eexists. split; [done |]. eexists. split; [done |].
    by apply mul_zero_finite.
  - intros Hf. by rewrite (mul_zero_infinity _ Hf).
Qed.

(** A float64 series whose non-missing values are all the same is
    degenerate. *)
Lemma all_equal_degenerate (s : Pd.Series) (w : float) :
  (∀ c, c ∈ s → Pd.is_int c = false) →
  (∀ u, u ∈ Pd.present s → u = w) →
  degenerate s.
Proof.
  intros Hfl Hw. destruct s as [|c0 s']; [by left |]. right.
  assert (Pd.is_int64 (c0 :: s') = false) as Hi
    by (apply (is_int64_elem _ c0); [left | apply Hfl; left]).
  destruct (Pd.present (c0 :: s')) as [|u us] eqn:E.
  - left. intros [z | f] Hc; [by apply Hfl in Hc |].
    simpl. destruct (is_nan f) eqn:Hn; [done |].
    assert (f ∈ Pd.present (c0 :: s')) as Hin
      by (apply elem_of_present; split; [done |]; by exists (Pd.CFloat f)).
    rewrite E in Hin. by apply elem_of_nil in Hin.
  - right.
    destruct (min_max_float (c0 :: s') Hi) as (lo & hi & Hlo & Hleast & Hhi & Hgreatest);
      [by rewrite E |].
    pose proof (present_not_nan (c0 :: s')) as Hnn.
    rewrite E in Hnn, Hleast, Hgreatest.
    pose proof (is_least_not_nan _ _ Hnn Hleast) as Hn.
    destruct Hleast as [->%Hw _], Hgreatest as [->%Hw _].
    rewrite Hlo, Hhi. simpl. by apply eqb_refl.
Qed.

Lemma constant_converted_degenerate (raw : Pd.Series) (k : float) :
  constant raw → degenerate (Pd.mul raw k).
Proof.
  intros [v Hv]. apply (all_equal_degenerate _ (Pd.to_float v * k)).
  - unfold Pd.mul. by intros c (c0 & -> & _)%list_elem_of_fmap.
  - intros u (Hn & c & -> & Hc)%elem_of_present.
    unfold Pd.mul in Hc. apply list_elem_of_fmap in Hc as (c0 & -> & Hc0).
    simpl in *. destruct (Hv c0 Hc0) as [->%isna_nan | ->]; [| done].
    unfold Pd.nan in Hn. simpl in Hn. by rewrite mul_nan_l in Hn.
Qed.

Lemma length_minmax_normalize (s : Pd.Series) :
  length (minmax_normalize s) = length s.
Proof.
  destruct (minmax_normalize_cells s) as (g & -> & _). apply length_fmap.
Qed.

Lemma minmax_normalize_nan (s : Pd.Series) (i : nat) :
  s !! i = Some Pd.nan → minmax_normalize s !! i = Some Pd.nan.
Proof.
  intros E. destruct (minmax_normalize_cells s) as (g & -> & Hg).
  rewrite list_lookup_fmap, E. simpl. by rewrite Hg.
Qed.

End Normalize.

(** ** Claims about [minmax_normalize] *)

(** C2, as stated, fails: a series of two missing values is degenerate, and
    its normalisation is again two missing values, not two zeros.  So is
    the normalisation of a series that holds infinity twice. *)
Lemma C2_all_missing_counterexample :
  degenerate [Pd.nan; Pd.nan] ∧
  minmax_normalize [Pd.nan; Pd.nan] = [Pd.nan; Pd.nan] ∧
  ¬ (∀ c, c ∈ minmax_normalize [Pd.nan; Pd.nan] → is_zero c) ∧
  degenerate [Pd.CFloat infinity; Pd.CFloat infinity] ∧
  minmax_normalize [Pd.CFloat infinity; Pd.CFloat infinity] = [Pd.nan; Pd.nan].
Proof.
  split_and!.
  - right; left. intros c Hc.
    apply elem_of_cons in Hc as [-> | Hc]; [done |].
    by apply list_elem_of_singleton in Hc as ->.
  - reflexivity.
  - intros H. destruct (H Pd.nan) as (f & [= <-] & Hf); [left |]. done.
  - right; right. reflexivity.
  - reflexivity.
Qed.

(** C2 (amended): for a series that is empty, all missing, or whose maximum
    equals its minimum, [minmax_normalize] returns a series of the same
    length in which every finite number has become 0 and every missing value
    is still missing (an infinite value becomes missing as well); the result
    is all zeros when every value of the series is finite. *)
Theorem C2_degenerate_normalization (s : Pd.Series) :
  degenerate s →
  length (minmax_normalize s) = length s ∧
  (∀ i c, s !! i = Some c →
     (Pd.isna c = true → minmax_normalize s !! i = Some Pd.nan) ∧
     (is_finite (Pd.to_float c) = true →
        ∃ c', minmax_normalize s !! i = Some c' ∧ is_zero c') ∧
     (is_infinity (Pd.to_float c) = true → minmax_normalize s !! i = Some Pd.nan)) ∧
  ((∀ c, c ∈ s → is_finite (Pd.to_float c) = true) →
   ∀ c', c' ∈ minmax_normalize s → is_zero c').
Proof.
  intros E%minmax_normalize_flat. rewrite E.
  split; [unfold Pd.mul; by rewrite length_fmap |].
  split; [intros i c; apply mul_zero_cells |].
  intros Hs c' (c & -> & Hc)%list_elem_of_fmap.
  eexists. split; [done |]. by apply mul_zero_finite, Hs.
Qed.

Lemma C2_degenerate_normalization_witness :
  let s : Pd.Series := [Pd.CFloat 5; Pd.nan; Pd.CFloat 5] in
  degenerate s ∧
  length (minmax_normalize s) = length s ∧
  (∀ i c, s !! i = Some c →
     (Pd.isna c = true → minmax_normalize s !! i = Some Pd.nan) ∧
     (is_finite (Pd.to_float c) = true →
        ∃ c', minmax_normalize s !! i = Some c' ∧ is_zero c') ∧
     (is_infinity (Pd.to_float c) = true → minmax_normalize s !! i = Some Pd.nan)) ∧
  ((∀ c, c ∈ s → is_finite (Pd.to_float c) = true) →
   ∀ c', c' ∈ minmax_normalize s → is_zero c').
Proof.
  intros s.
  assert (degenerate s) as D by (right; right; reflexivity).
  split; [exact D |].
  exact (C2_degenerate_normalization s D).
Defined.

(** C4: the code leaves the range [[-1, 1]] that its own documentation
    promises.  On the int64 column [-5e18, 0, 5e18] the subtractions
    [series - s_min] and [s_max - s_min] wrap around, and the middle value
    comes out below -1; on the float64 column [-2^1023, 0, 2^1023] the
    difference [s_max - s_min] overflows to infinity, two results are NaN and
    the maximum of the result is -1, not 1. *)
Theorem C4_normalize_leaves_range :
  let ints := [Pd.CInt (-5000000000000000000); Pd.CInt 0; Pd.CInt 5000000000000000000] in
  let floats := [Pd.CFloat (-0x1p1023); Pd.CFloat 0; Pd.CFloat 0x1p1023] in
  Pd.min ints = Pd.CInt (-5000000000000000000) ∧
  Pd.max ints = Pd.CInt 5000000000000000000 ∧
  Pd.sub_scalar (Pd.max ints) (Pd.min ints) = Pd.CInt (-8446744073709551616) ∧
  minmax_normalize ints
    = [Pd.CFloat (-1); Pd.CFloat (-0x1.1789a56489c42p+1); Pd.CFloat 1] ∧
  (-0x1.1789a56489c42p+1 <? -1)%float = true ∧
  Pd.min (minmax_normalize ints) = Pd.CFloat (-0x1.1789a56489c42p+1) ∧
  minmax_normalize floats = [Pd.CFloat (-1); Pd.nan; Pd.nan] ∧
  Pd.max (minmax_normalize floats) = Pd.CFloat (-1).
Proof. intros ints floats. by vm_compute. Qed.

(** C10: when the series also holds missing values, min and max are the
    least and the greatest of the non-missing values, every value [v] becomes
    [2*(v - min)/(max - min) - 1] in binary64, and every missing value stays
    missing. *)
Theorem C10_missing_stay_missing (s : Pd.Series) :
  (∃ c, c ∈ s ∧ is_nan (Pd.to_float c) = false) →
  Pd.nan ∈ s →
  Pd.eqb (Pd.max s) (Pd.min s) = false →
  ∃ lo hi,
    Pd.min s = Pd.CFloat lo ∧ is_least lo (Pd.present s) ∧
    Pd.max s = Pd.CFloat hi ∧ is_greatest hi (Pd.present s) ∧
    length (minmax_normalize s) = length s ∧
    (∀ i c, s !! i = Some c →
       minmax_normalize s !! i
         = Some (Pd.CFloat (2 * (Pd.to_float c - lo) / (hi - lo) - 1)%float)) ∧
    (∀ i, s !! i = Some Pd.nan → minmax_normalize s !! i = Some Pd.nan) ∧
    Pd.nan ∈ minmax_normalize s.
Proof.
  intros (c & Hc & Hn) Hnan Hne.
  assert (Pd.is_int64 s = false) as Hi by (by apply (is_int64_elem _ Pd.nan)).
  assert (Pd.present s ≠ []) as Hp.
  { intros E. assert (Pd.to_float c ∈ Pd.present s) as H
      by (apply elem_of_present; eauto).
    rewrite E in H. by apply elem_of_nil in H. }
  destruct (min_max_float s Hi Hp) as (lo & hi & Hlo & Hleast & Hhi & Hgreatest).
  pose proof (is_least_not_nan _ _ (present_not_nan s) Hleast) as Hnlo.
  pose proof (is_greatest_not_nan _ _ (present_not_nan s) Hgreatest) as Hnhi.
  rewrite Hlo, Hhi in Hne. simpl in Hne.
  exists lo, hi.
  rewrite (minmax_normalize_rescale s lo hi Hi Hlo Hhi Hnlo Hnhi Hne).
  split_and!; try done.
  - by rewrite length_fmap.
  - intros i c' E. by rewrite list_lookup_fmap, E.
  - intros i E. rewrite list_lookup_fmap, E. unfold Pd.nan at 1. simpl.
    by rewrite rescale_nan.
  - apply list_elem_of_fmap. exists Pd.nan. split; [| done].
    unfold Pd.nan at 2. simpl. by rewrite rescale_nan.
Qed.

Lemma C10_missing_stay_missing_witness :
  let s : Pd.Series := [Pd.CFloat 3; Pd.nan; Pd.CFloat 1] in
  (∃ c, c ∈ s ∧ is_nan (Pd.to_float c) = false) ∧
  Pd.nan ∈ s ∧
  Pd.eqb (Pd.max s) (Pd.min s) = false ∧
  ∃ lo hi,
    Pd.min s = Pd.CFloat lo ∧ is_least lo (Pd.present s) ∧
    Pd.max s = Pd.CFloat hi ∧ is_greatest hi (Pd.present s) ∧
    length (minmax_normalize s) = length s ∧
    (∀ i c, s !! i = Some c →
       minmax_normalize s !! i
         = Some (Pd.CFloat (2 * (Pd.to_float c - lo) / (hi - lo) - 1)%float)) ∧
    (∀ i, s !! i = Some Pd.nan → minmax_normalize s !! i = Some Pd.nan) ∧
    Pd.nan ∈ minmax_normalize s.
Proof.
  intros s.
  assert (∃ c, c ∈ s ∧ is_nan (Pd.to_float c) = false) as H1.
  { exists (Pd.CFloat 3). split; [left | reflexivity]. }
  assert (Pd.nan ∈ s) as H2 by (right; left).
  assert (Pd.eqb (Pd.max s) (Pd.min s) = false) as H3 by reflexivity.
  split; [exact H1 |]. split; [exact H2 |]. split; [exact H3 |].
  exact (C10_missing_stay_missing s H1 H2 H3).
Defined.
(** The formula is the code's binary64 one: where [s_max - s_min] overflows,
    a value that is not missing comes out as NaN. *)
Example minmax_normalize_overflow_with_gap :
  minmax_normalize [Pd.CFloat (-0x1p1023); Pd.nan; Pd.CFloat 0x1p1023]
  = [Pd.CFloat (-1); Pd.nan; Pd.nan].
Proof. reflexivity. Qed.

(** ** Classification *)

Section Classifier.

Example is_ignored_Trigger : is_ignored_column "Trigger" = true.
Proof. vm_compute. reflexivity. Qed.

Example is_ignored_x3 : is_ignored_column "x3:aux2" = true.
Proof. vm_compute. reflexivity. Qed.

Example is_ignored_Fz : is_ignored_column "Fz" = false.
Proof. vm_compute. reflexivity. Qed.

Lemma lower_ascii_x a :
  Ascii.eqb (Str.lower_ascii a) "x" = Ascii.eqb a "X" || Ascii.eqb a "x".
Proof. destruct a as [[] [] [] [] [] [] [] []]; reflexivity. Qed.

Lemma lower_ascii_3 a : Ascii.eqb (Str.lower_ascii a) "3" = Ascii.eqb a "3".
Proof. destruct a as [[] [] [] [] [] [] [] []]; reflexivity. Qed.

Lemma lower_ascii_colon a : Ascii.eqb (Str.lower_ascii a) ":" = Ascii.eqb a ":".
Proof. destruct a as [[] [] [] [] [] [] [] []]; reflexivity. Qed.

Lemma ascii_dec_eqb {B} (a b : ascii) (t e : B) :
  (if ascii_dec a b then t else e) = if Ascii.eqb b a then t else e.
Proof.
  destruct (ascii_dec a b) as [-> | Hne].
  - by rewrite Ascii.eqb_refl.
  - destruct (Ascii.eqb_spec b a); [by subst | done].
Qed.

(** The two prefix tests of [is_ignored_column] together are [X3_prefixed]. *)
Lemma startswith_X3 (c : string) :
  Str.startswith c "X3:" || Str.startswith (Str.lower c) "x3:" = X3_prefixed c.
Proof.
  unfold Str.startswith.
  destruct c as [|a [|b [|d r]]]; simpl; rewrite ?ascii_dec_eqb;
    rewrite ?lower_ascii_x, ?lower_ascii_3, ?lower_ascii_colon.
  - done.
  - destruct (Ascii.eqb a "X"), (Ascii.eqb a "x"); done.
  - destruct (Ascii.eqb a "X"), (Ascii.eqb a "x"), (Ascii.eqb b "3"); done.
  - assert (String.prefix "" r = true ∧ String.prefix "" (Str.lower r) = true) as [-> ->]
      by (by destruct r).
    destruct (Ascii.eqb a "X"), (Ascii.eqb a "x"), (Ascii.eqb b "3"), (Ascii.eqb d ":"); done.
Qed.

Lemma is_ignored_column_spec (c : string) :
  is_ignored_column c = true ↔ c ∈ IGNORE_EXACT ∨ X3_prefixed c = true.
Proof.
  unfold is_ignored_column. rewrite startswith_X3. case_bool_decide as Hc.
  - split; [by left | done].
  - destruct (X3_prefixed c); (split; [by right | by intros [? | ?]]).
Qed.

Lemma candidates_not_ignored :
  Forall (λ c, is_ignored_column c = false) (EEG_CANDIDATES ++ ["X1:LEOG"; "X2:REOG"; "CM"]).
Proof. repeat constructor. Qed.

Lemma NoDup_candidates : NoDup (EEG_CANDIDATES ++ ["X1:LEOG"; "X2:REOG"; "CM"]).
Proof. compute_done. Qed.

Lemma filter_ext_in {A} (P Q : A → Prop) `{!∀ x, Decision (P x), !∀ x, Decision (Q x)}
    (l : list A) :
  (∀ x, x ∈ l → P x ↔ Q x) → filter P l = filter Q l.
Proof.
  induction l as [|a l IH]; intros Hext; [done |].
  assert (filter P l = filter Q l) as E by (apply IH; intros x Hx; apply Hext; by right).
  rewrite !filter_cons. rewrite E.
  destruct (decide (P a)) as [HP | HP], (decide (Q a)) as [HQ | HQ]; try done.
  - destruct HQ. apply Hext; [left | done].
  - destruct HP. apply Hext; [left | done].
Qed.

Lemma filter_all {A} (P : A → Prop) `{!∀ x, Decision (P x)} (l : list A) :
  (∀ x, x ∈ l → P x) → filter P l = l.
Proof.
  induction l as [|a l IH]; intros Hall; [done |].
  rewrite filter_cons_True by (apply Hall; left).
  f_equal. apply IH. intros x Hx. apply Hall. by right.
Qed.

(** What is left of the column labels after lines 203-205 of [main]. *)
Lemma columns_drop_ignored (df : Pd.DataFrame) :
  Pd.columns (drop_ignored df) = filter (λ c, is_ignored_column c ≠ true) (Pd.columns df).
Proof.
  unfold drop_ignored.
  destruct (filter _ (Pd.columns df)) as [|c0 l] eqn:E.
  - symmetry. apply filter_all. intros c Hc Hi.
    assert (c ∈ filter (λ c, is_ignored_column c = true) (Pd.columns df)) as Hin
      by (by apply list_elem_of_filter).
    rewrite E in Hin. by apply elem_of_nil in Hin.
  - rewrite <- E. simpl. apply filter_ext_in. intros c Hc.
    rewrite negb_true_iff, bool_decide_eq_false, list_elem_of_filter.
    split; [intros Hn Hi; by apply Hn | intros Hn [Hi _]; by apply Hn].
Qed.

Lemma ignored_not_in_columns (df : Pd.DataFrame) (c : string) :
  is_ignored_column c = true → c ∉ Pd.columns (drop_ignored df).
Proof.
  intros Hi. rewrite columns_drop_ignored, list_elem_of_filter. by intros [Hn _].
Qed.

Lemma kept_in_columns (df : Pd.DataFrame) (c : string) :
  is_ignored_column c = false → c ∈ Pd.columns df → c ∈ Pd.columns (drop_ignored df).
Proof.
  intros Hi Hc. rewrite columns_drop_ignored, list_elem_of_filter. split; [congruence | done].
Qed.

(** Every name [detect_channels] returns is a column of its table and comes
    from the table of its group. *)
Lemma detect_channels_eeg (df : Pd.DataFrame) ie ic (c : string) :
  c ∈ (detect_channels df ie ic).1.1 ↔ c ∈ Pd.columns df ∧ c ∈ EEG_CANDIDATES.
Proof. simpl. by rewrite list_elem_of_filter. Qed.

Lemma detect_channels_ecg (df : Pd.DataFrame) ie ic :
  (detect_channels df ie ic).1.2 =
    if ie then filter (λ c, c ∈ Pd.columns df) ["X1:LEOG"; "X2:REOG"] else [].
Proof.
  simpl. destruct ie; [| done].
  rewrite !filter_cons, filter_nil.
  repeat case_bool_decide; repeat case_decide; done.
Qed.

Lemma detect_channels_cm (df : Pd.DataFrame) ie ic :
  (detect_channels df ie ic).2 =
    if ic then (if decide ("CM" ∈ Pd.columns df) then Some "CM" else None) else None.
Proof. simpl. destruct ic; [| done]. simpl. case_bool_decide; case_decide; done. Qed.

Lemma detect_channels_ecg_elem (df : Pd.DataFrame) ie ic (c : string) :
  c ∈ (detect_channels df ie ic).1.2 → c ∈ Pd.columns df ∧ c ∈ ["X1:LEOG"; "X2:REOG"].
Proof.
  rewrite detect_channels_ecg. destruct ie; [| by intros ?%elem_of_nil].
  by rewrite list_elem_of_filter.
Qed.

Lemma detect_channels_cm_elem (df : Pd.DataFrame) ie ic (c : string) :
  (detect_channels df ie ic).2 = Some c → c ∈ Pd.columns df ∧ c = "CM".
Proof.
  rewrite detect_channels_cm. destruct ic; [| done]. case_decide; [| done].
  by intros [= <-].
Qed.

End Classifier.

(** ** Claims about the classifier *)

(** C6: a column named [Trigger], [Time_Offset], [ADC_Status],
    [ADC_Sequence], [Event] or [Comments], or whose name starts with [X3:]
    in either case, is gone before classification and is in none of the
    three outputs, whatever the table and the flags; every EEG candidate of
    the table, such as [Fz], is still classified as EEG. *)
Theorem C6_ignored_columns_never_classified
    (df : Pd.DataFrame) (include_ecg include_cm : bool) (c : string) :
  c ∈ ["Trigger"; "Time_Offset"; "ADC_Status"; "ADC_Sequence"; "Event"; "Comments"]
  ∨ X3_prefixed c = true →
  let '(eeg, ecg, cm) := detect_channels (drop_ignored df) include_ecg include_cm in
  is_ignored_column c = true ∧
  (c ∉ Pd.columns (drop_ignored df)) ∧
  (c ∉ eeg) ∧ (c ∉ ecg) ∧ (cm ≠ Some c) ∧
  (∀ e, e ∈ EEG_CANDIDATES → e ∈ Pd.columns df → e ∈ eeg) ∧
  ("Fz" ∈ Pd.columns df → "Fz" ∈ eeg).
Proof.
  intros Hc.
  assert (is_ignored_column c = true) as Hi.
  { destruct Hc as [Hc | Hc]; [| apply is_ignored_column_spec; by right].
    repeat (apply elem_of_cons in Hc as [-> | Hc]; [reflexivity |]).
    by apply elem_of_nil in Hc. }
  pose proof (ignored_not_in_columns df c Hi) as Hout.
  pose proof (detect_channels_eeg (drop_ignored df) include_ecg include_cm) as Heeg.
  pose proof (detect_channels_ecg_elem (drop_ignored df) include_ecg include_cm c) as Hecg.
  pose proof (detect_channels_cm_elem (drop_ignored df) include_ecg include_cm c) as Hcm.
  destruct (detect_channels (drop_ignored df) include_ecg include_cm) as [[eeg ecg] cm].
  simpl in *.
  assert (∀ e, e ∈ EEG_CANDIDATES → e ∈ Pd.columns df → e ∈ eeg) as Hkeep.
  { intros e He Hcol. apply Heeg. split; [| done]. apply kept_in_columns; [| done].
    pose proof candidates_not_ignored as Hall. rewrite Forall_forall in Hall.
    apply Hall, elem_of_app. by left. }
  split_and!; [done | done | | | | done |].
  - intros [H _]%Heeg. by apply Hout.
  - intros [H _]%Hecg. by apply Hout.
  - intros [H _]%Hcm. by apply Hout.
  - apply Hkeep. apply (bool_decide_unpack _). vm_compute. exact I.
Qed.

Lemma C6_ignored_columns_never_classified_witness :
  let df := {| Pd.columns := ["Trigger"; "X3:Aux"; "x3:aux2"; "Fz"];
               Pd.index := []; Pd.rows := [] |} in
  let dropped (c : string) :=
    (c ∈ ["Trigger"; "Time_Offset"; "ADC_Status"; "ADC_Sequence"; "Event"; "Comments"]
     ∨ X3_prefixed c = true) ∧
    let '(eeg, ecg, cm) := detect_channels (drop_ignored df) true true in
    is_ignored_column c = true ∧
    (c ∉ Pd.columns (drop_ignored df)) ∧
    (c ∉ eeg) ∧ (c ∉ ecg) ∧ (cm ≠ Some c) ∧
    (∀ e, e ∈ EEG_CANDIDATES → e ∈ Pd.columns df → e ∈ eeg) ∧
    ("Fz" ∈ Pd.columns df → "Fz" ∈ eeg) in
  detect_channels (drop_ignored df) true true = (["Fz"], [], None) ∧
  dropped "Trigger" ∧ dropped "X3:Aux" ∧ dropped "x3:aux2".
Proof.
  intros df dropped.
  assert ("Trigger" ∈ ["Trigger"; "Time_Offset"; "ADC_Status"; "ADC_Sequence"; "Event";
                       "Comments"]
          ∨ X3_prefixed "Trigger" = true) as H1 by (left; left).
  assert ("X3:Aux" ∈ ["Trigger"; "Time_Offset"; "ADC_Status"; "ADC_Sequence"; "Event";
                      "Comments"]
          ∨ X3_prefixed "X3:Aux" = true) as H2 by (right; reflexivity).
  assert ("x3:aux2" ∈ ["Trigger"; "Time_Offset"; "ADC_Status"; "ADC_Sequence"; "Event";
                       "Comments"]
          ∨ X3_prefixed "x3:aux2" = true) as H3 by (right; reflexivity).
  split; [reflexivity |].
  split; [| split].
  - split; [exact H1 |].
    exact (C6_ignored_columns_never_classified df true true "Trigger" H1).
  - split; [exact H2 |].
    exact (C6_ignored_columns_never_classified df true true "X3:Aux" H2).
  - split; [exact H3 |].
    exact (C6_ignored_columns_never_classified df true true "x3:aux2" H3).
Defined.

(** C7: the EEG output is the candidate list restricted to the columns
    present, in the candidate list's order (so it does not depend on the
    order of the header); the ECG output, when ECG is included, is
    [X1:LEOG] then [X2:REOG], each iff present; the reference, when
    included, is [CM] iff a column [CM] exists.  Columns [Time, Fz, Cz,
    X1:LEOG, CM] give EEG [Fz, Cz], ECG [X1:LEOG], reference [CM], also with
    the header reversed. *)
Theorem C7_detect_channels_by_fixed_order (df : Pd.DataFrame) (include_ecg include_cm : bool) :
  length EEG_CANDIDATES = 21 ∧
  (let '(eeg, ecg, cm) := detect_channels df include_ecg include_cm in
   (∀ c, c ∈ eeg ↔ c ∈ Pd.columns df ∧ c ∈ EEG_CANDIDATES) ∧
   eeg `sublist_of` EEG_CANDIDATES ∧
   NoDup eeg ∧
   ecg = (if include_ecg
          then (if decide ("X1:LEOG" ∈ Pd.columns df) then ["X1:LEOG"] else [])
               ++ (if decide ("X2:REOG" ∈ Pd.columns df) then ["X2:REOG"] else [])
          else []) ∧
   cm = (if include_cm
         then (if decide ("CM" ∈ Pd.columns df) then Some "CM" else None)
         else None)) ∧
  (∀ df', Pd.columns df' ≡ₚ Pd.columns df →
          detect_channels df' include_ecg include_cm
          = detect_channels df include_ecg include_cm) ∧
  (∀ idx rows,
     detect_channels {| Pd.columns := ["Time"; "Fz"; "Cz"; "X1:LEOG"; "CM"];
                        Pd.index := idx; Pd.rows := rows |} true true
     = (["Fz"; "Cz"], ["X1:LEOG"], Some "CM") ∧
     detect_channels {| Pd.columns := ["CM"; "X1:LEOG"; "Cz"; "Fz"; "Time"];
                        Pd.index := idx; Pd.rows := rows |} true true
     = (["Fz"; "Cz"], ["X1:LEOG"], Some "CM")).
Proof.
  split; [done |]. split; [| split].
  - pose proof (detect_channels_eeg df include_ecg include_cm) as Heeg.
    pose proof (detect_channels_cm df include_ecg include_cm) as Hcm.
    assert ((detect_channels df include_ecg include_cm).1.1 `sublist_of` EEG_CANDIDATES)
      as Hsub by apply sublist_filter.
    assert ((detect_channels df include_ecg include_cm).1.2 =
            if include_ecg
            then (if decide ("X1:LEOG" ∈ Pd.columns df) then ["X1:LEOG"] else [])
                 ++ (if decide ("X2:REOG" ∈ Pd.columns df) then ["X2:REOG"] else [])
            else []) as Hecg.
    { simpl. destruct include_ecg; [| done].
      repeat case_bool_decide; repeat case_decide; done. }
    destruct (detect_channels df include_ecg include_cm) as [[eeg ecg] cm].
    simpl in *. split_and!; [done | done | | done | done].
    eapply sublist_NoDup; [| exact Hsub].
    pose proof NoDup_candidates as Hnd. by apply NoDup_app in Hnd as [Hnd _].
  - intros df' Hperm. unfold detect_channels.
    assert (∀ c : string, c ∈ Pd.columns df' ↔ c ∈ Pd.columns df) as Hin
      by (intros c; by rewrite Hperm).
    f_equal; [f_equal |].
    + apply list_filter_iff, Hin.
    + destruct include_ecg; [| done].
      by rewrite !(bool_decide_ext _ _ (Hin _)).
    + by rewrite (bool_decide_ext _ _ (Hin _)).
  - intros idx rows. split; reflexivity.
Qed.

Lemma eeg_not_aux (c : string) :
  c ∈ EEG_CANDIDATES → c ∉ ["X1:LEOG"; "X2:REOG"; "CM"].
Proof.
  pose proof NoDup_candidates as Hnd. apply NoDup_app in Hnd as (_ & Hd & _). apply Hd.
Qed.

Lemma NoDup_eeg (df : Pd.DataFrame) ie ic : NoDup (detect_channels df ie ic).1.1.
Proof.
  simpl. eapply sublist_NoDup; [| apply sublist_filter].
  pose proof NoDup_candidates as Hnd. by apply NoDup_app in Hnd as [Hnd _].
Qed.

Lemma NoDup_ecg (df : Pd.DataFrame) ie ic : NoDup (detect_channels df ie ic).1.2.
Proof.
  rewrite detect_channels_ecg. destruct ie; [| constructor].
  eapply sublist_NoDup; [| apply sublist_filter].
  pose proof NoDup_candidates as Hnd. apply NoDup_app in Hnd as (_ & _ & Hnd).
  change ["X1:LEOG"; "X2:REOG"; "CM"] with (["X1:LEOG"; "X2:REOG"] ++ ["CM"]) in Hnd.
  by apply NoDup_app in Hnd as [Hnd _].
Qed.

(** C9: the three outputs of the classifier share no name, whatever the
    columns and the flags. *)
Theorem C9_groups_mutually_exclusive (df : Pd.DataFrame) (include_ecg include_cm : bool) :
  let '(eeg, ecg, cm) := detect_channels df include_ecg include_cm in
  (∀ c, c ∈ eeg → c ∉ ecg) ∧
  (∀ c, c ∈ eeg → cm ≠ Some c) ∧
  (∀ c, c ∈ ecg → cm ≠ Some c) ∧
  NoDup (eeg ++ ecg ++ option_list cm).
Proof.
  pose proof (detect_channels_eeg df include_ecg include_cm) as Heeg.
  pose proof (detect_channels_ecg_elem df include_ecg include_cm) as Hecg.
  pose proof (detect_channels_cm_elem df include_ecg include_cm) as Hcm.
  pose proof (NoDup_eeg df include_ecg include_cm) as Nd1.
  pose proof (NoDup_ecg df include_ecg include_cm) as Nd2.
  destruct (detect_channels df include_ecg include_cm) as [[eeg ecg] cm].
  simpl in *.
  assert (∀ c, c ∈ eeg → c ∉ ecg) as H1.
  { intros c [_ Hc]%Heeg [_ Hc']%Hecg. apply (eeg_not_aux c Hc).
    change ["X1:LEOG"; "X2:REOG"; "CM"] with (["X1:LEOG"; "X2:REOG"] ++ ["CM"]).
    apply elem_of_app. by left. }
  assert (∀ c, c ∈ eeg → cm ≠ Some c) as H2.
  { intros c [_ Hc]%Heeg [_ ->]%Hcm. apply (eeg_not_aux "CM" Hc). do 2 right. left. }
  assert (∀ c, c ∈ ecg → cm ≠ Some c) as H3.
  { intros c [_ Hc]%Hecg [_ ->]%Hcm.
    apply elem_of_cons in Hc as [Hc | Hc]; [done |].
    by apply list_elem_of_singleton in Hc. }
  split_and!; [done | done | done |].
  apply NoDup_app. split_and!; [done | |].
  - intros c Hc [Hc' | Hc']%elem_of_app; [by apply (H1 c) |].
    destruct cm as [m|]; simpl in Hc'; [| by apply elem_of_nil in Hc'].
    apply list_elem_of_singleton in Hc' as ->. by apply (H2 m).
  - apply NoDup_app. split_and!; [done | |].
    + intros c Hc Hc'.
      destruct cm as [m|]; simpl in Hc'; [| by apply elem_of_nil in Hc'].
      apply list_elem_of_singleton in Hc' as ->. by apply (H3 m).
    + destruct cm; simpl; [apply NoDup_singleton | constructor].
Qed.

(** ** The loader *)

Section Loader.

(** [l[::step]] holds, at position [i], what [l] holds at [skip + i*step]. *)
Lemma slice_step_lookup {A} (l : list A) (skip step i : nat) :
  (0 < step)%nat →
  Pd.slice_step skip step l !! i = l !! (skip + i * step)%nat.
Proof.
  intros Hstep. revert skip i.
  induction l as [|a l IH]; intros skip i; [done |].
  destruct skip as [|k]; simpl.
  - destruct i as [|i]; [done |]. simpl. rewrite IH.
    replace (step + i * step)%nat with (S (step - 1 + i * step)) by lia. done.
  - by rewrite IH.
Qed.

Lemma slice_step_length {A} (l : list A) (step : nat) :
  (0 < step)%nat →
  length (Pd.slice_step 0 step l) = ((length l + step - 1) / step)%nat.
Proof.
  intros Hstep.
  set (n := length (Pd.slice_step 0 step l)).
  assert (∀ i, (i < n)%nat ↔ (i * step < length l)%nat) as Hn.
  { intros i. unfold n. rewrite <- !lookup_lt_is_Some.
    by rewrite slice_step_lookup. }
  clearbody n.
  assert (length l ≤ n * step)%nat as Hup.
  { destruct (decide (length l ≤ n * step)%nat) as [|Hc]; [done |].
    assert (n < n)%nat by (apply Hn; lia). lia. }
  assert (n = 0 ∨ (n - 1) * step < length l)%nat as Hlow.
  { destruct n as [|m]; [by left | right]. apply Hn. lia. }
  apply Nat.div_unique with (r := (length l + step - 1 - step * n)%nat).
  - destruct Hlow as [-> | Hlow]; nia.
  - destruct Hlow as [-> | Hlow]; nia.
Qed.

Lemma load_data_ok (w : World) (path : string) (n : Z) (df : Pd.DataFrame) :
  read_csv w path = inr df →
  "Time" ∈ Pd.columns df →
  load_data w path n =
    ([], Ok (if negb (n =? 0)%Z && (1 <? n)%Z
             then Pd.reset_index (Pd.iloc_step df (Z.to_nat n))
             else df)).
Proof.
  intros Hread Htime. unfold load_data. rewrite Hread. simpl.
  destruct (negb (n =? 0)%Z && (1 <? n)%Z); simpl;
    by rewrite bool_decide_eq_true_2.
Qed.

Lemma load_data_read_error (w : World) (path : string) (n : Z) (e : exn) :
  read_csv w path = inl e →
  load_data w path n =
    ([Print Stderr [PStr ("Failed to read CSV: " +:+ exn_msg e)]], Raise e).
Proof. intros Hread. unfold load_data. by rewrite Hread. Qed.

Lemma load_data_no_time (w : World) (path : string) (n : Z) (df : Pd.DataFrame) :
  read_csv w path = inr df →
  "Time" ∉ Pd.columns df →
  load_data w path n =
    ([], Raise (Exn "ValueError" "CSV must include a 'Time' column in seconds.")).
Proof.
  intros Hread Htime. unfold load_data. rewrite Hread. simpl.
  destruct (negb (n =? 0)%Z && (1 <? n)%Z); simpl;
    by rewrite bool_decide_eq_false_2.
Qed.

(** Whatever [load_data] returns has the columns [read_csv] gave, and
    nothing was printed. *)
Lemma load_data_Ok_inv (w : World) (path : string) (n : Z) out (df : Pd.DataFrame) :
  load_data w path n = (out, Ok df) →
  out = [] ∧ ∃ df0, read_csv w path = inr df0 ∧ "Time" ∈ Pd.columns df0 ∧
                    Pd.columns df = Pd.columns df0.
Proof.
  destruct (read_csv w path) as [e | df0] eqn:Hread.
  - by rewrite (load_data_read_error w path n e Hread).
  - destruct (decide ("Time" ∈ Pd.columns df0)) as [Ht | Ht].
    + rewrite (load_data_ok w path n df0 Hread Ht). intros [= <- <-].
      split; [done |]. exists df0. split_and!; [done | done |].
      by destruct (negb (n =? 0)%Z && (1 <? n)%Z).
    + by rewrite (load_data_no_time w path n df0 Hread Ht).
Qed.

End Loader.

(** C3: with a stride [N > 1] the loader keeps the rows at indices
    0, N, 2N, ... in order, [ceil(R/N)] of them, and labels them 0, 1, 2, ...;
    with stride 1 the table comes back as it was read. *)
Theorem C3_downsampling_keeps_every_Nth_row
    (w : World) (path : string) (df : Pd.DataFrame) (N : Z) :
  read_csv w path = inr df →
  "Time" ∈ Pd.columns df →
  (1 < N)%Z →
  load_data w path 1 = ([], Ok df) ∧
  ∃ df',
    load_data w path N = ([], Ok df') ∧
    Pd.columns df' = Pd.columns df ∧
    (∀ k : nat, Pd.rows df' !! k = Pd.rows df !! (k * Z.to_nat N)%nat) ∧
    Z.of_nat (length (Pd.rows df')) = ((Z.of_nat (length (Pd.rows df)) + N - 1) / N)%Z ∧
    Pd.index df' = Z.of_nat <$> seq 0 (length (Pd.rows df')).
Proof.
  intros Hread Htime HN. split.
  - by rewrite (load_data_ok w path 1 df Hread Htime).
  - rewrite (load_data_ok w path N df Hread Htime).
    replace (negb (N =? 0)%Z && (1 <? N)%Z) with true
      by (symmetry; apply andb_true_iff; split;
          [apply negb_true_iff, Z.eqb_neq | apply Z.ltb_lt]; lia).
    eexists. split; [done |]. simpl. split_and!; [done | | | done].
    + intros k. by rewrite slice_step_lookup by lia.
    + rewrite slice_step_length by lia.
      rewrite Nat2Z.inj_div, Nat2Z.inj_sub, Nat2Z.inj_add by lia.
      by rewrite Z2Nat.id by lia.
Qed.

(** ** The run as a whole *)

Section Main.

Lemma main_missing_path (w : World) (args : Args) :
  path_exists w (path_str w (csv args)) = false →
  main w args = ([Print Stderr [PStr ("CSV not found: " +:+ path_str w (csv args))]], SysExit 1).
Proof. intros H. unfold main. by rewrite H. Qed.

Lemma main_load_raises (w : World) (args : Args) out (e : exn) :
  path_exists w (path_str w (csv args)) = true →
  load_data w (path_str w (csv args)) (downsample args) = (out, Raise e) →
  main w args = (out, Raise e).
Proof.
  intros H Hload. unfold main. rewrite H. simpl.
  unfold mbind, Py_bind. simpl. by rewrite Hload.
Qed.

Lemma main_no_channels (w : World) (args : Args) (df : Pd.DataFrame) :
  path_exists w (path_str w (csv args)) = true →
  load_data w (path_str w (csv args)) (downsample args) = ([], Ok df) →
  detect_channels (drop_ignored df) (negb (no_ecg args)) (negb (no_cm args)) = ([], [], None) →
  main w args =
    ([Print Stderr [PStr "No plottable channels detected. Please check your CSV headers."];
      Print Stderr [PStr "Columns found:"; PList (Pd.columns (drop_ignored df))]],
     SysExit 2).
Proof.
  intros H Hload Hdet. unfold main. cbv zeta. rewrite H, Hload.
  unfold mbind, Py_bind. cbn -[detect_channels drop_ignored]. by rewrite Hdet.
Qed.

End Main.

Lemma C3_downsampling_keeps_every_Nth_row_witness :
  let w := world_reading (inr recording_df) in
  read_csv w "recording.csv" = inr recording_df ∧
  "Time" ∈ Pd.columns recording_df ∧
  (1 < 2)%Z ∧
  load_data w "recording.csv" 1 = ([], Ok recording_df) ∧
  ∃ df',
    load_data w "recording.csv" 2 = ([], Ok df') ∧
    Pd.columns df' = Pd.columns recording_df ∧
    (∀ k : nat, Pd.rows df' !! k = Pd.rows recording_df !! (k * Z.to_nat 2)%nat) ∧
    Z.of_nat (length (Pd.rows df')) = ((Z.of_nat (length (Pd.rows recording_df)) + 2 - 1) / 2)%Z ∧
    Pd.index df' = Z.of_nat <$> seq 0 (length (Pd.rows df')).
Proof.
  intros w.
  assert ("Time" ∈ Pd.columns recording_df) as H2 by left.
  assert (1 < 2)%Z as H3 by lia.
  split; [reflexivity |]. split; [exact H2 |]. split; [exact H3 |].
  exact (C3_downsampling_keeps_every_Nth_row w "recording.csv" recording_df 2 eq_refl H2 H3).
Defined.

(** ** Exit codes *)

(** C1, as stated, fails: a missing file, an unreadable table and a table
    without [Time] all end the run with exit status 1. *)
Lemma C1_exit_codes_coincide_counterexample :
  let w_parse := world_reading (inl (Exn "ParserError" "Error tokenizing data")) in
  let w_valid := world_reading (inr no_time_df) in
  fails_with world_without_file default_args InputNotFound ∧
  fails_with w_parse default_args ParseError ∧
  fails_with w_valid default_args ValidationError ∧
  exit_status (main world_without_file default_args).2 = 1%Z ∧
  exit_status (main w_parse default_args).2 = 1%Z ∧
  exit_status (main w_valid default_args).2 = 1%Z ∧
  ¬ (exit_status (main world_without_file default_args).2
       ≠ exit_status (main w_parse default_args).2 ∧
     exit_status (main w_parse default_args).2
       ≠ exit_status (main w_valid default_args).2 ∧
     exit_status (main world_without_file default_args).2
       ≠ exit_status (main w_valid default_args).2).
Proof.
  intros w_parse w_valid. split_and!.
  - by constructor.
  - by econstructor.
  - eapply validation_error; [done | done |].
    intros H. repeat (apply elem_of_cons in H as [H | H]; [discriminate H |]).
    by apply elem_of_nil in H.
  - reflexivity.
  - reflexivity.
  - reflexivity.
  - intros (H & _ & _). by apply H.
Qed.

(** C1 (amended): each of the three fatal failures ends the process with a
    non-zero exit status, and that status is 1 for all three: [sys.exit(1)]
    for the missing path, an uncaught exception for the other two. *)
Theorem C1_fatal_failures_exit_nonzero (w : World) (args : Args) (f : failure) :
  fails_with w args f →
  exit_status (main w args).2 = 1%Z ∧
  exit_status (main w args).2 ≠ 0%Z ∧
  match f with
  | InputNotFound => (main w args).2 = SysExit 1
  | ParseError => ∃ e, read_csv w (path_str w (csv args)) = inl e ∧ (main w args).2 = Raise e
  | ValidationError => ∃ msg, (main w args).2 = Raise (Exn "ValueError" msg)
  end.
Proof.
  intros [Hp | e Hp Hread | df Hp Hread Htime].
  - by rewrite (main_missing_path w args Hp).
  - rewrite (main_load_raises w args _ e Hp (load_data_read_error w _ _ e Hread)).
    split_and!; [done | done |]. by exists e.
  - rewrite (main_load_raises w args _ _ Hp (load_data_no_time w _ _ df Hread Htime)).
    split_and!; [done | done |]. by eexists.
Qed.

Lemma C1_fatal_failures_exit_nonzero_witness :
  let w := world_reading (inr no_time_df) in
  fails_with w default_args ValidationError ∧
  exit_status (main w default_args).2 = 1%Z ∧
  exit_status (main w default_args).2 ≠ 0%Z ∧
  ∃ msg, (main w default_args).2 = Raise (Exn "ValueError" msg).
Proof.
  intros w.
  assert (fails_with w default_args ValidationError) as H.
  { eapply validation_error; [reflexivity | reflexivity |].
    intros H. repeat (apply elem_of_cons in H as [H | H]; [discriminate H |]).
    by apply elem_of_nil in H. }
  split; [exact H |].
  exact (C1_fatal_failures_exit_nonzero w default_args ValidationError H).
Defined.

(** C8: when the classifier finds no EEG, no ECG and no reference channel,
    the run prints the remaining column names on stderr and exits with
    status 2, which is not the status of a missing input path. *)
Theorem C8_no_channels_exit (w : World) (args : Args) (df : Pd.DataFrame) :
  path_exists w (path_str w (csv args)) = true →
  (load_data w (path_str w (csv args)) (downsample args)).2 = Ok df →
  detect_channels (drop_ignored df) (negb (no_ecg args)) (negb (no_cm args)) = ([], [], None) →
  main w args =
    ([Print Stderr [PStr "No plottable channels detected. Please check your CSV headers."];
      Print Stderr [PStr "Columns found:"; PList (Pd.columns (drop_ignored df))]],
     SysExit 2) ∧
  Pd.columns (drop_ignored df) = filter (λ c, is_ignored_column c ≠ true) (Pd.columns df) ∧
  exit_status (main w args).2 = 2%Z ∧
  (∀ w' args', path_exists w' (path_str w' (csv args')) = false →
               exit_status (main w' args').2 ≠ exit_status (main w args).2).
Proof.
  intros Hp Hload Hdet.
  destruct (load_data w (path_str w (csv args)) (downsample args)) as [out r] eqn:E.
  simpl in Hload. subst r.
  destruct (load_data_Ok_inv _ _ _ _ _ E) as [-> _].
  rewrite (main_no_channels w args df Hp E Hdet).
  split_and!; [done | apply columns_drop_ignored | done |].
  intros w' args' Hp'. by rewrite (main_missing_path w' args' Hp').
Qed.

Lemma C8_no_channels_exit_witness :
  let w := world_reading (inr no_signal_df) in
  path_exists w (path_str w (csv default_args)) = true ∧
  (load_data w (path_str w (csv default_args)) (downsample default_args)).2 = Ok no_signal_df ∧
  detect_channels (drop_ignored no_signal_df) true true = ([], [], None) ∧
  main w default_args =
    ([Print Stderr [PStr "No plottable channels detected. Please check your CSV headers."];
      Print Stderr [PStr "Columns found:"; PList ["Time"]]],
     SysExit 2) ∧
  exit_status (main w default_args).2 = 2%Z.
Proof.
  intros w.
  assert (path_exists w (path_str w (csv default_args)) = true) as H1 by reflexivity.
  assert ((load_data w (path_str w (csv default_args)) (downsample default_args)).2 = Ok no_signal_df)
    as H2 by reflexivity.
  assert (detect_channels (drop_ignored no_signal_df)
            (negb (no_ecg default_args)) (negb (no_cm default_args)) = ([], [], None))
    as H3 by (vm_compute; reflexivity).
  split; [exact H1 |]. split; [exact H2 |]. split; [exact H3 |].
  destruct (C8_no_channels_exit w default_args no_signal_df H1 H2 H3) as (Hm & _ & Hs & _).
  split; [| exact Hs].
  rewrite Hm. vm_compute. reflexivity.
Defined.

(** ** The figure builder *)

Section Figure.

Lemma getitem_present (df : Pd.DataFrame) (ch : string) :
  ch ∈ Pd.columns df → Pd.getitem df ch = ([], Ok (column_of df ch)).
Proof.
  intros Hch. unfold Pd.getitem, column_of, Pd.get_loc.
  destruct (list_find_elem_of (λ c, c = ch) (Pd.columns df) ch Hch eq_refl) as [[j c] ->].
  done.
Qed.

Lemma getitem_absent (df : Pd.DataFrame) (ch : string) :
  ch ∉ Pd.columns df → Pd.getitem df ch = ([], Raise (Exn "KeyError" (Str.repr ch))).
Proof.
  intros Hch. unfold Pd.getitem, Pd.get_loc.
  destruct (list_find (λ c, c = ch) (Pd.columns df)) as [[j c]|] eqn:E; [| done].
  apply list_find_Some in E as (Hj & -> & _).
  destruct Hch. by eapply list_elem_of_lookup_2.
Qed.

(** A loop whose body succeeds silently on the good elements and raises on
    the others either maps the whole list or raises at a bad element. *)
Lemma for_each_cases {A B} (P : A → Prop) `{!∀ a, Decision (P a)}
    (body : A → Py B) (g : A → B) (h : A → exn) (l : list A) :
  (∀ a, P a → body a = ([], Ok (g a))) →
  (∀ a, ¬ P a → body a = ([], Raise (h a))) →
  ((∀ a, a ∈ l → P a) ∧ for_each body l = ([], Ok (g <$> l))) ∨
  (∃ a, a ∈ l ∧ ¬ P a ∧ for_each body l = ([], Raise (h a))).
Proof.
  intros Hok Hbad. induction l as [|a l IH].
  - left. split; [by intros a ?%elem_of_nil | done].
  - simpl. unfold mbind, Py_bind. destruct (decide (P a)) as [Ha | Ha].
    + rewrite (Hok a Ha). simpl.
      destruct IH as [[Hall ->] | (b & Hb & Hnb & ->)].
      * left. split; [| done]. intros a' [-> | ?]%elem_of_cons; auto.
      * right. exists b. split_and!; [by right | done | done].
    + right. exists a. rewrite (Hbad a Ha). split_and!; [left | done | done].
Qed.

(** On a table of numbers [build_figure] either finds every column it reads
    and returns [figure_of], or raises the [KeyError] of a column that is
    missing; it never prints. *)
Lemma build_figure_cases (df : Pd.DataFrame) (eeg ecg : list string)
    (cm : option string) (norm : bool) :
  ((∀ ch, ch ∈ "Time" :: eeg ++ ecg ++ option_list cm → ch ∈ Pd.columns df) ∧
   build_figure df eeg ecg cm norm = ([], Ok (figure_of df eeg ecg cm norm))) ∨
  (∃ ch, ch ∈ "Time" :: eeg ++ ecg ++ option_list cm ∧ (ch ∉ Pd.columns df) ∧
         build_figure df eeg ecg cm norm = ([], Raise (Exn "KeyError" (Str.repr ch)))).
Proof.
  unfold build_figure, mbind, Py_bind.
  destruct (decide ("Time" ∈ Pd.columns df)) as [Ht | Ht].
  2:{ right. exists "Time". rewrite (getitem_absent df "Time" Ht).
      split_and!; [left | done | done]. }
  rewrite (getitem_present df "Time" Ht). cbn [py_bind].
  match goal with
  | |- context [for_each ?f eeg] =>
      destruct (for_each_cases (λ ch, ch ∈ Pd.columns df) f
                  (λ ch, {| x := column_of df "Time";
                            y := if norm then minmax_normalize (column_of df ch)
                                 else column_of df ch;
                            name := if norm then ch +:+ " (norm)" else ch;
                            row := 1; secondary_y := false |})
                  (λ ch, Exn "KeyError" (Str.repr ch)) eeg)
        as [[Heeg ->] | (ch & Hin & Hch & ->)]
  end.
  { intros ch Hch. rewrite (getitem_present df ch Hch). by destruct norm. }
  { intros ch Hch. by rewrite (getitem_absent df ch Hch). }
  2:{ right. exists ch. split_and!; [| done | done].
      right. apply elem_of_app. by left. }
  cbn [py_bind].
  match goal with
  | |- context [for_each ?f ecg] =>
      destruct (for_each_cases (λ ch, ch ∈ Pd.columns df) f
                  (λ ch, {| x := column_of df "Time";
                            y := if norm
                                 then minmax_normalize (Pd.mul (column_of df ch) 1000)
                                 else Pd.mul (column_of df ch) 1000;
                            name := if norm then ch +:+ " (norm)" else ch +:+ " (µV)";
                            row := 1; secondary_y := true |})
                  (λ ch, Exn "KeyError" (Str.repr ch)) ecg)
        as [[Hecg ->] | (ch & Hin & Hch & ->)]
  end.
  { intros ch Hch. rewrite (getitem_present df ch Hch). by destruct norm. }
  { intros ch Hch. by rewrite (getitem_absent df ch Hch). }
  2:{ right. exists ch. split_and!; [| done | done].
      right. apply elem_of_app. right. apply elem_of_app. by left. }
  cbn [py_bind].
  destruct cm as [ch|].
  - destruct (decide (ch ∈ Pd.columns df)) as [Hch | Hch].
    + left. rewrite (getitem_present df ch Hch). split.
      * intros c [-> | [? | [? | Hc]%elem_of_app]%elem_of_app]%elem_of_cons; auto.
        simpl in Hc. by apply list_elem_of_singleton in Hc as ->.
      * unfold figure_of. by destruct norm.
    + right. exists ch. rewrite (getitem_absent df ch Hch). split_and!; [| done | done].
      right. apply elem_of_app. right. apply elem_of_app. right. left.
  - left. split.
    + intros c [-> | [? | [? | Hc]%elem_of_app]%elem_of_app]%elem_of_cons; auto.
      simpl in Hc. by apply elem_of_nil in Hc.
    + unfold figure_of. simpl. by destruct norm.
Qed.

(** A figure that [build_figure] returns is [figure_of], and every column
    read was there. *)
Lemma build_figure_Ok (df : Pd.DataFrame) (eeg ecg : list string)
    (cm : option string) (norm : bool) out (fig : Figure) :
  build_figure df eeg ecg cm norm = (out, Ok fig) →
  out = [] ∧ fig = figure_of df eeg ecg cm norm ∧
  ∀ ch, ch ∈ "Time" :: eeg ++ ecg ++ option_list cm → ch ∈ Pd.columns df.
Proof.
  intros H.
  destruct (build_figure_cases df eeg ecg cm norm) as [[Hall E] | (ch & _ & _ & E)];
    rewrite E in H; [| done].
  by injection H as <- <-.
Qed.

Lemma length_column_of (df : Pd.DataFrame) (ch : string) :
  ch ∈ Pd.columns df → length (column_of df ch) = length (Pd.rows df).
Proof.
  intros Hch. unfold column_of, Pd.get_loc.
  destruct (list_find_elem_of (λ c, c = ch) (Pd.columns df) ch Hch eq_refl) as [[j c] ->].
  simpl. by rewrite length_fmap.
Qed.

End Figure.

(** C5, as stated, fails: a constant ECG column does not always come out as
    zeros.  With a gap in the column the gap is still there after
    normalisation, and a constant that the conversion takes out of the range
    of binary64 comes out as NaN throughout. *)
Lemma C5_constant_ecg_counterexample :
  constant (column_of gapped_ecg_df "X1:LEOG") ∧
  (∃ fig, build_figure gapped_ecg_df [] ["X1:LEOG"] None true = ([], Ok fig) ∧
          y <$> traces fig = [[Pd.CFloat 0; Pd.nan; Pd.CFloat 0]]) ∧
  constant (column_of huge_ecg_df "X1:LEOG") ∧
  (∀ c, c ∈ column_of huge_ecg_df "X1:LEOG" → Pd.isna c = false) ∧
  (∃ fig, build_figure huge_ecg_df [] ["X1:LEOG"] None true = ([], Ok fig) ∧
          y <$> traces fig = [[Pd.nan; Pd.nan]]) ∧
  ¬ (∀ (df : Pd.DataFrame) (ch : string) (fig : Figure),
       constant (column_of df ch) →
       (∀ c, c ∈ column_of df ch → Pd.isna c = false) →
       build_figure df [] [ch] None true = ([], Ok fig) →
       ∀ t c, t ∈ traces fig → c ∈ y t → is_zero c).
Proof.
  split_and!.
  - exists (flt 2). intros c Hc. vm_compute in Hc.
    apply elem_of_cons in Hc as [-> | Hc]; [by right |].
    apply elem_of_cons in Hc as [-> | Hc]; [by left |].
    apply list_elem_of_singleton in Hc as ->. by right.
  - eexists. split; reflexivity.
  - exists (Pd.CFloat 0x1p1015). intros c Hc. vm_compute in Hc.
    apply elem_of_cons in Hc as [-> | Hc]; [by right |].
    apply list_elem_of_singleton in Hc as ->. by right.
  - intros c Hc. vm_compute in Hc.
    apply elem_of_cons in Hc as [-> | Hc]; [done |].
    by apply list_elem_of_singleton in Hc as ->.
  - eexists. split; reflexivity.
  - intros H.
    assert (constant (column_of huge_ecg_df "X1:LEOG")) as Hconst.
    { exists (Pd.CFloat 0x1p1015). intros c Hc. vm_compute in Hc.
      apply elem_of_cons in Hc as [-> | Hc]; [by right |].
      apply list_elem_of_singleton in Hc as ->. by right. }
    assert (∀ c, c ∈ column_of huge_ecg_df "X1:LEOG" → Pd.isna c = false) as Hfull.
    { intros c Hc. vm_compute in Hc.
      apply elem_of_cons in Hc as [-> | Hc]; [done |].
      by apply list_elem_of_singleton in Hc as ->. }
    destruct (H huge_ecg_df "X1:LEOG" _ Hconst Hfull eq_refl
                {| x := column_of huge_ecg_df "Time"; y := [Pd.nan; Pd.nan];
                   name := "X1:LEOG (norm)"; row := 1; secondary_y := true |}
                Pd.nan) as (f & [= <-] & Hf); [left | left |].
    done.
Qed.

(** C5 (amended): in a figure that [build_figure] returns, the trace of an
    ECG channel carries the raw column times 1000, and normalisation, when
    asked for, is applied to the converted values; so a constant ECG column
    comes out with 0 wherever the converted value is finite, a gap stays a
    gap, and a value that the conversion takes to infinity comes out as NaN.
    The traces of EEG channels and of the reference carry the raw column,
    normalised or not, unconverted. *)
Theorem C5_ecg_converted_before_normalized
    (df : Pd.DataFrame) (eeg ecg : list string) (cm : option string) (norm : bool)
    out (fig : Figure) :
  build_figure df eeg ecg cm norm = (out, Ok fig) →
  length (traces fig) = (length eeg + length ecg + length (option_list cm))%nat ∧
  (∀ i ch, ecg !! i = Some ch →
     ∃ raw t,
       Pd.getitem df ch = ([], Ok raw) ∧
       traces fig !! (length eeg + i)%nat = Some t ∧
       let converted := (λ c, Pd.CFloat (Pd.to_float c * 1000)) <$> raw in
       y t = (if norm then minmax_normalize converted else converted) ∧
       (norm = true → constant raw →
        length (y t) = length raw ∧
        (∀ j, raw !! j = Some Pd.nan → y t !! j = Some Pd.nan) ∧
        (∀ j c, converted !! j = Some c →
           (Pd.isna c = true → y t !! j = Some Pd.nan) ∧
           (is_finite (Pd.to_float c) = true → ∃ c', y t !! j = Some c' ∧ is_zero c') ∧
           (is_infinity (Pd.to_float c) = true → y t !! j = Some Pd.nan)))) ∧
  (∀ i ch, eeg !! i = Some ch →
     ∃ raw t,
       Pd.getitem df ch = ([], Ok raw) ∧
       traces fig !! i = Some t ∧
       y t = (if norm then minmax_normalize raw else raw)) ∧
  (∀ ch, cm = Some ch →
     ∃ raw t,
       Pd.getitem df ch = ([], Ok raw) ∧
       traces fig !! (length eeg + length ecg)%nat = Some t ∧
       y t = (if norm then minmax_normalize raw else raw)).
Proof.
  intros (-> & -> & Hcols)%build_figure_Ok.
  assert (∀ ch, ch ∈ eeg → ch ∈ Pd.columns df) as Heeg
    by (intros ch H; apply Hcols; right; apply elem_of_app; by left).
  assert (∀ ch, ch ∈ ecg → ch ∈ Pd.columns df) as Hecg.
  { intros ch H. apply Hcols. right. apply elem_of_app; right. apply elem_of_app; by left. }
  assert (∀ ch, cm = Some ch → ch ∈ Pd.columns df) as Hcm.
  { intros ch ->. apply Hcols. right. apply elem_of_app; right. apply elem_of_app; right.
    left. }
  unfold figure_of. cbn [traces].
  set (time := column_of df "Time").
  set (finish := λ s : Pd.Series, if norm then minmax_normalize s else s).
  set (g_eeg := λ ch, {| x := time; y := finish (column_of df ch);
                         name := if norm then ch +:+ " (norm)" else ch;
                         row := 1; secondary_y := false |}).
  set (g_ecg := λ ch, {| x := time;
                         y := finish (Pd.mul (column_of df ch) 1000);
                         name := if norm then ch +:+ " (norm)" else ch +:+ " (µV)";
                         row := 1; secondary_y := true |}).
  set (g_cm := λ ch, {| x := time; y := finish (column_of df ch);
                        name := if norm then ch +:+ " (norm)" else ch;
                        row := 2; secondary_y := false |}).
  split_and!.
  - rewrite !length_app, !length_fmap. lia.
  - intros i ch Hi. exists (column_of df ch), (g_ecg ch).
    split; [apply getitem_present, Hecg; by eapply list_elem_of_lookup_2 |].
    split.
    { rewrite lookup_app_r by (rewrite length_fmap; lia).
      rewrite length_fmap. replace (length eeg + i - length eeg)%nat with i by lia.
      rewrite lookup_app_l by (rewrite length_fmap; by eapply lookup_lt_Some).
      by rewrite list_lookup_fmap, Hi. }
    cbn zeta. split; [done |].
    intros -> Hconst. cbn [y g_ecg]. unfold finish.
    fold (Pd.mul (column_of df ch) 1000).
    rewrite (minmax_normalize_flat (Pd.mul (column_of df ch) 1000))
      by (by apply constant_converted_degenerate).
    split_and!.
    + unfold Pd.mul. by rewrite !length_fmap.
    + intros j Hj. unfold Pd.mul. by rewrite !list_lookup_fmap, Hj.
    + intros j c. apply mul_zero_cells.
  - intros i ch Hi. exists (column_of df ch), (g_eeg ch).
    split; [apply getitem_present, Heeg; by eapply list_elem_of_lookup_2 |].
    split; [| done].
    rewrite lookup_app_l by (rewrite length_fmap; by eapply lookup_lt_Some).
    by rewrite list_lookup_fmap, Hi.
  - intros ch ->. exists (column_of df ch), (g_cm ch).
    split; [by apply getitem_present, Hcm |]. split; [| done].
    rewrite lookup_app_r by (rewrite length_fmap; lia).
    rewrite length_fmap. rewrite lookup_app_r by (rewrite length_fmap; lia).
    rewrite length_fmap.
    by replace (length eeg + length ecg - length eeg - length ecg)%nat with 0%nat by lia.
Qed.

Lemma C5_ecg_converted_before_normalized_witness :
  ∃ fig,
    build_figure gapped_ecg_df [] ["X1:LEOG"] None true = ([], Ok fig) ∧
    length (traces fig) = 1%nat ∧
    ∃ raw t,
      Pd.getitem gapped_ecg_df "X1:LEOG" = ([], Ok raw) ∧
      traces fig !! 0%nat = Some t ∧
      let converted := (λ c, Pd.CFloat (Pd.to_float c * 1000)) <$> raw in
      y t = minmax_normalize converted ∧
      (true = true → constant raw →
       length (y t) = length raw ∧
       (∀ j, raw !! j = Some Pd.nan → y t !! j = Some Pd.nan) ∧
       (∀ j c, converted !! j = Some c →
          (Pd.isna c = true → y t !! j = Some Pd.nan) ∧
          (is_finite (Pd.to_float c) = true → ∃ c', y t !! j = Some c' ∧ is_zero c') ∧
          (is_infinity (Pd.to_float c) = true → y t !! j = Some Pd.nan))).
Proof.
  eexists. split; [reflexivity |].
  destruct (C5_ecg_converted_before_normalized gapped_ecg_df [] ["X1:LEOG"] None true
              [] _ eq_refl) as (Hlen & Hecg & _).
  split; [exact Hlen |].
  exact (Hecg 0%nat "X1:LEOG" eq_refl).
Defined.

(** * Further properties *)

(** ** The loader: strides, rows, columns *)

Lemma slice_step_short {A} (l : list A) (skip step : nat) :
  (length l ≤ skip)%nat → Pd.slice_step skip step l = [].
Proof.
  revert skip. induction l as [|a l IH]; intros skip Hlen; [done |].
  simpl in *. destruct skip as [|k]; [lia |]. apply IH. lia.
Qed.

Lemma slice_step_elem {A} (l : list A) (skip step : nat) (a : A) :
  a ∈ Pd.slice_step skip step l → a ∈ l.
Proof.
  revert skip. induction l as [|b l IH]; intros skip; simpl; [done |].
  destruct skip as [|k].
  - intros [-> | H]%elem_of_cons; [left | right; by eapply IH].
  - intros H. right. by eapply IH.
Qed.

Lemma slice_step_length_any {A B} (l : list A) (k : list B) (skip step : nat) :
  length l = length k →
  length (Pd.slice_step skip step l) = length (Pd.slice_step skip step k).
Proof.
  revert k skip. induction l as [|a l IH]; intros [|b k] skip Hlen; simpl in *; try done.
  destruct skip; simpl; [f_equal |]; apply IH; lia.
Qed.

(** X1: a stride of 1, of 0 or a negative one leaves the table as it was
    read. *)
Theorem X1_stride_at_most_one_is_noop
    (w : World) (path : string) (df : Pd.DataFrame) (N : Z) :
  read_csv w path = inr df →
  "Time" ∈ Pd.columns df →
  (N ≤ 1)%Z →
  load_data w path N = ([], Ok df).
Proof.
  intros Hread Htime HN. rewrite (load_data_ok w path N df Hread Htime).
  replace (negb (N =? 0)%Z && (1 <? N)%Z) with false; [done |].
  symmetry. apply andb_false_iff. right. apply Z.ltb_ge. lia.
Qed.

Lemma X1_stride_at_most_one_is_noop_witness :
  let w := world_reading (inr recording_df) in
  read_csv w "recording.csv" = inr recording_df ∧
  "Time" ∈ Pd.columns recording_df ∧
  (-3 ≤ 1)%Z ∧
  load_data w "recording.csv" (-3) = ([], Ok recording_df).
Proof.
  intros w.
  assert ("Time" ∈ Pd.columns recording_df) as H2 by left.
  assert (-3 ≤ 1)%Z as H3 by lia.
  split; [reflexivity |]. split; [exact H2 |]. split; [exact H3 |].
  exact (X1_stride_at_most_one_is_noop w "recording.csv" recording_df (-3) eq_refl H2 H3).
Defined.

(** X2: downsampling never empties a table that has rows: the first row is
    always kept, and it is the only one left once the stride reaches the
    number of rows. *)
Theorem X2_downsampling_keeps_first_row
    (w : World) (path : string) (df : Pd.DataFrame) (N : Z) (r0 : list Pd.cell)
    (rest : list (list Pd.cell)) :
  read_csv w path = inr df →
  "Time" ∈ Pd.columns df →
  (1 < N)%Z →
  Pd.rows df = r0 :: rest →
  ∃ df' rest',
    load_data w path N = ([], Ok df') ∧
    Pd.rows df' = r0 :: rest' ∧
    (∀ r, r ∈ rest' → r ∈ rest) ∧
    ((Z.of_nat (length (Pd.rows df)) ≤ N)%Z → Pd.rows df' = [r0] ∧ Pd.index df' = [0%Z]).
Proof.
  intros Hread Htime HN Hrows. rewrite (load_data_ok w path N df Hread Htime).
  replace (negb (N =? 0)%Z && (1 <? N)%Z) with true
    by (symmetry; apply andb_true_iff; split;
        [apply negb_true_iff, Z.eqb_neq | apply Z.ltb_lt]; lia).
  eexists. exists (Pd.slice_step (Z.to_nat N - 1) (Z.to_nat N) rest).
  split; [done |]. simpl. rewrite Hrows. simpl. split_and!; [done | |].
  - intros r. apply slice_step_elem.
  - intros Hlen. simpl in Hlen.
    rewrite slice_step_short by lia. done.
Qed.

Lemma X2_downsampling_keeps_first_row_witness :
  let w := world_reading (inr no_signal_df) in
  read_csv w "recording.csv" = inr no_signal_df ∧
  "Time" ∈ Pd.columns no_signal_df ∧
  (1 < 7)%Z ∧
  ∃ df' rest',
    load_data w "recording.csv" 7 = ([], Ok df') ∧
    Pd.rows df' = [num 0; num 0; num 5] :: rest' ∧
    (∀ r, r ∈ rest' → r ∈ [[num 1; num 1; num 6]]) ∧
    ((Z.of_nat (length (Pd.rows no_signal_df)) ≤ 7)%Z →
     Pd.rows df' = [[num 0; num 0; num 5]] ∧ Pd.index df' = [0%Z]).
Proof.
  intros w.
  assert ("Time" ∈ Pd.columns no_signal_df) as H2 by left.
  assert (1 < 7)%Z as H3 by lia.
  split; [reflexivity |]. split; [exact H2 |]. split; [exact H3 |].
  exact (X2_downsampling_keeps_first_row w "recording.csv" no_signal_df 7
           [num 0; num 0; num 5] [[num 1; num 1; num 6]] eq_refl H2 H3 eq_refl).
Defined.

(** X3: [load_data] returns a table exactly when [read_csv] returns one
    that has a [Time] column, whatever the stride; it then prints nothing
    and the columns are those read. *)
Theorem X3_load_data_succeeds_iff (w : World) (path : string) (N : Z) :
  ((∃ out df', load_data w path N = (out, Ok df')) ↔
   (∃ df, read_csv w path = inr df ∧ "Time" ∈ Pd.columns df)) ∧
  (∀ out df', load_data w path N = (out, Ok df') →
     out = [] ∧
     ∃ df, read_csv w path = inr df ∧ Pd.columns df' = Pd.columns df ∧
           ∀ r, r ∈ Pd.rows df' → r ∈ Pd.rows df).
Proof.
  split; [split |].
  - intros (out & df' & H). destruct (load_data_Ok_inv _ _ _ _ _ H) as (_ & df & ? & ? & _).
    by exists df.
  - intros (df & Hread & Htime). rewrite (load_data_ok w path N df Hread Htime). eauto.
  - intros out df' H.
    destruct (load_data_Ok_inv _ _ _ _ _ H) as (-> & df & Hread & Htime & Hcols).
    split; [done |]. exists df. split_and!; [done | done |].
    rewrite (load_data_ok w path N df Hread Htime) in H. injection H as <-.
    destruct (negb (N =? 0)%Z && (1 <? N)%Z); simpl; [| done].
    intros r. apply slice_step_elem.
Qed.

(** ** Dropping the ignored columns *)

Section Drop.
Variable keep : string → bool.

Lemma drop_row_length (cols : list string) (r : list Pd.cell) :
  length r = length cols →
  length (snd <$> filter (λ cv, keep cv.1 = true) (zip cols r))
  = length (filter (λ c, keep c = true) cols).
Proof.
  revert r. induction cols as [|c cols IH]; intros [|v r] Hlen; simpl in *; try done.
  rewrite !filter_cons. simpl.
  destruct (decide (keep c = true)); simpl; [f_equal |]; apply IH; lia.
Qed.

(** The cell of a kept column is found in the shortened row at the kept
    column's new position. *)
Lemma drop_row_lookup (cols : list string) (r : list Pd.cell) (ch : string) :
  keep ch = true →
  match list_find (λ c, c = ch) cols with
  | Some (j, _) =>
      ∃ j', fst <$> list_find (λ c, c = ch) (filter (λ c, keep c = true) cols) = Some j' ∧
            (snd <$> filter (λ cv, keep cv.1 = true) (zip cols r)) !! j' = r !! j
  | None => list_find (λ c, c = ch) (filter (λ c, keep c = true) cols) = None
  end.
Proof.
  intros Hch. revert r. induction cols as [|c cols IH]; intros r; [done |].
  rewrite filter_cons. csimpl. destruct (decide (c = ch)) as [-> | Hne].
  - rewrite decide_True by done. csimpl. rewrite decide_True by done.
    exists 0%nat. split; [done |]. destruct r as [|v r]; [done |].
    simpl. rewrite filter_cons. simpl. by rewrite decide_True.
  - destruct r as [|v r].
    + specialize (IH []).
      destruct (list_find (λ c0, c0 = ch) cols) as [[j c']|] eqn:E; csimpl.
      * destruct IH as (j' & Hj' & _).
        destruct (decide (keep c = true)); csimpl.
        -- rewrite decide_False by done.
           destruct (list_find _ (filter _ cols)) as [[j0 c0]|]; [| done].
           simpl in Hj'. injection Hj' as ->. exists (S j'). split; [done |].
           by destruct cols.
        -- exists j'. split; [done |]. by destruct cols.
      * destruct (decide (keep c = true)); csimpl; [| done].
        rewrite decide_False by done. by rewrite IH.
    + specialize (IH r).
      destruct (list_find (λ c0, c0 = ch) cols) as [[j c']|] eqn:E; csimpl.
      * destruct IH as (j' & Hj' & Hlook).
        rewrite filter_cons. simpl.
        destruct (decide (keep c = true)); csimpl.
        -- rewrite decide_False by done.
           destruct (list_find _ (filter _ cols)) as [[j0 c0]|]; [| done].
           simpl in Hj'. injection Hj' as ->. exists (S j'). split; [done |]. done.
        -- exists j'. split; [done |]. done.
      * destruct (decide (keep c = true)); csimpl; [| done].
        rewrite decide_False by done. by rewrite IH.
Qed.

End Drop.

Lemma drop_labels_keep (df : Pd.DataFrame) (ch : string) :
  is_ignored_column ch = false →
  negb (bool_decide (ch ∈ filter (λ c, is_ignored_column c = true) (Pd.columns df))) = true.
Proof.
  intros Hch. apply negb_true_iff, bool_decide_eq_false.
  rewrite list_elem_of_filter. intros [Hi _]. congruence.
Qed.

Lemma getitem_drop_ignored (df : Pd.DataFrame) (ch : string) :
  is_ignored_column ch = false →
  Pd.getitem (drop_ignored df) ch = Pd.getitem df ch.
Proof.
  intros Hch. unfold drop_ignored.
  destruct (filter _ (Pd.columns df)) as [|l0 ls] eqn:E; [done |]. rewrite <- E. clear E.
  set (labels := filter (λ c, is_ignored_column c = true) (Pd.columns df)).
  pose (keep := λ c : string, negb (bool_decide (c ∈ labels))).
  assert (keep ch = true) as Hkeep by apply (drop_labels_keep df ch Hch).
  unfold Pd.getitem, Pd.get_loc. cbn [Pd.drop Pd.columns Pd.rows].
  pose proof (drop_row_lookup keep (Pd.columns df) [] ch Hkeep) as H0.
  destruct (list_find (λ c, c = ch) (Pd.columns df)) as [[j c]|] eqn:Efind.
  - destruct H0 as (j' & Hj' & _). unfold keep in Hj'. rewrite Hj'.
    cbn [fmap option_fmap option_map fst].
    unfold mret, Py_ret, py_ret. do 2 f_equal.
    rewrite <- list_fmap_compose. apply list_fmap_ext. intros _ r _. simpl.
    pose proof (drop_row_lookup keep (Pd.columns df) r ch Hkeep) as Hr.
    rewrite Efind in Hr. destruct Hr as (j'' & Hj'' & Hlook).
    unfold keep in Hj'', Hlook. rewrite Hj' in Hj''. injection Hj'' as <-.
    by rewrite Hlook.
  - unfold keep in H0. by rewrite H0.
Qed.

(** X4: dropping the ignored columns leaves every other column as it was:
    [df[ch]] gives the same series before and after, and the same [KeyError]
    when [ch] is not a column. *)
Theorem X4_drop_keeps_other_columns (df : Pd.DataFrame) (ch : string) :
  is_ignored_column ch = false →
  Pd.getitem (drop_ignored df) ch = Pd.getitem df ch.
Proof. apply getitem_drop_ignored. Qed.

Lemma X4_drop_keeps_other_columns_witness :
  is_ignored_column "Fz" = false ∧
  Pd.getitem (drop_ignored recording_df) "Fz" = Pd.getitem recording_df "Fz".
Proof.
  assert (is_ignored_column "Fz" = false) as H by (vm_compute; reflexivity).
  split; [exact H |].
  exact (X4_drop_keeps_other_columns recording_df "Fz" H).
Defined.

Lemma for_each_ext {A B} (f g : A → Py B) (l : list A) :
  (∀ a, a ∈ l → f a = g a) → for_each f l = for_each g l.
Proof.
  induction l as [|a l IH]; intros Hfg; [done |].
  simpl. rewrite (Hfg a) by left.
  rewrite IH by (intros a' Ha'; apply Hfg; by right). done.
Qed.

(** [build_figure] reads its table only through [df["Time"]] and the
    channels it is given. *)
Lemma build_figure_ext (df df' : Pd.DataFrame) (eeg ecg : list string)
    (cm : option string) (norm : bool) :
  (∀ ch, ch ∈ "Time" :: eeg ++ ecg ++ option_list cm →
         Pd.getitem df' ch = Pd.getitem df ch) →
  build_figure df' eeg ecg cm norm = build_figure df eeg ecg cm norm.
Proof.
  intros Hget. unfold build_figure, mbind, Py_bind.
  rewrite (Hget "Time") by left.
  destruct (Pd.getitem df "Time") as [out0 [time | e | code]]; cbn [py_bind]; [| done | done].
  match goal with
  | |- context [for_each ?f eeg] =>
      lazymatch (eval pattern df' in f) with
      | ?F _ => rewrite (for_each_ext f (F df) eeg)
      end
  end.
  2:{ intros ch Hch. cbv beta. rewrite (Hget ch); [done |].
      right. apply elem_of_app. by left. }
  cbv beta.
  destruct (for_each _ eeg) as [out1 [eeg_traces | e | code]]; cbn [py_bind]; [| done | done].
  match goal with
  | |- context [for_each ?f ecg] =>
      lazymatch (eval pattern df' in f) with
      | ?F _ => rewrite (for_each_ext f (F df) ecg)
      end
  end.
  2:{ intros ch Hch. cbv beta. rewrite (Hget ch); [done |].
      right. apply elem_of_app. right. apply elem_of_app. by left. }
  cbv beta.
  destruct (for_each _ ecg) as [out2 [ecg_traces | e | code]]; cbn [py_bind]; [| done | done].
  destruct cm as [ch|]; [| done].
  rewrite (Hget ch); [done |].
  right. apply elem_of_app. right. apply elem_of_app. right. left.
Qed.

Lemma kept_column_iff (df : Pd.DataFrame) (c : string) :
  is_ignored_column c = false →
  c ∈ Pd.columns (drop_ignored df) ↔ c ∈ Pd.columns df.
Proof.
  intros Hc. rewrite columns_drop_ignored, list_elem_of_filter.
  split; [by intros [_ ?] | intros ?; split; [congruence | done]].
Qed.

Lemma candidate_not_ignored (c : string) :
  c ∈ EEG_CANDIDATES ++ ["X1:LEOG"; "X2:REOG"; "CM"] → is_ignored_column c = false.
Proof.
  pose proof candidates_not_ignored as Hall. rewrite Forall_forall in Hall. apply Hall.
Qed.

Lemma detect_channels_drop_ignored (df : Pd.DataFrame) (ie ic : bool) :
  detect_channels (drop_ignored df) ie ic = detect_channels df ie ic.
Proof.
  unfold detect_channels. f_equal; [f_equal |].
  - apply filter_ext_in. intros c Hc. apply kept_column_iff, candidate_not_ignored.
    apply elem_of_app. by left.
  - destruct ie; [| done].
    assert (is_ignored_column "X1:LEOG" = false) as H1 by (vm_compute; reflexivity).
    assert (is_ignored_column "X2:REOG" = false) as H2 by (vm_compute; reflexivity).
    by rewrite (bool_decide_ext _ _ (kept_column_iff df _ H1)),
               (bool_decide_ext _ _ (kept_column_iff df _ H2)).
  - assert (is_ignored_column "CM" = false) as H3 by (vm_compute; reflexivity).
    by rewrite (bool_decide_ext _ _ (kept_column_iff df _ H3)).
Qed.

Lemma detected_not_ignored (df : Pd.DataFrame) (ie ic : bool) (ch : string) :
  ch ∈ (detect_channels df ie ic).1.1 ++ (detect_channels df ie ic).1.2
       ++ option_list (detect_channels df ie ic).2 →
  is_ignored_column ch = false ∧ ch ∈ Pd.columns df.
Proof.
  intros [H | [H | H]%elem_of_app]%elem_of_app.
  - apply detect_channels_eeg in H as [Hc He]. split; [| done].
    apply candidate_not_ignored, elem_of_app. by left.
  - apply detect_channels_ecg_elem in H as [Hc He]. split; [| done].
    apply candidate_not_ignored, elem_of_app. right.
    change ["X1:LEOG"; "X2:REOG"; "CM"] with (["X1:LEOG"; "X2:REOG"] ++ ["CM"]).
    apply elem_of_app. by left.
  - destruct (detect_channels df ie ic).2 as [m|] eqn:E; simpl in H;
      [| by apply elem_of_nil in H].
    apply list_elem_of_singleton in H as ->.
    apply detect_channels_cm_elem in E as [Hc ->]. split; [| done].
    apply candidate_not_ignored, elem_of_app. right. do 2 right. left.
Qed.

(** X5: the drop of the ignored columns changes neither the classification
    nor the figure: the channels found and the traces built are those of the
    table as loaded. *)
Theorem X5_drop_changes_no_channel_and_no_trace
    (df : Pd.DataFrame) (include_ecg include_cm norm : bool) :
  detect_channels (drop_ignored df) include_ecg include_cm
  = detect_channels df include_ecg include_cm ∧
  let '(eeg, ecg, cm) := detect_channels df include_ecg include_cm in
  build_figure (drop_ignored df) eeg ecg cm norm = build_figure df eeg ecg cm norm.
Proof.
  split; [apply detect_channels_drop_ignored |].
  pose proof (detected_not_ignored df include_ecg include_cm) as Hdet.
  destruct (detect_channels df include_ecg include_cm) as [[eeg ecg] cm]. simpl in Hdet.
  apply build_figure_ext. intros ch [-> | Hch]%elem_of_cons.
  - by apply getitem_drop_ignored.
  - apply getitem_drop_ignored. by apply Hdet.
Qed.

(** X6: dropping the ignored columns twice is dropping them once. *)
Theorem X6_drop_ignored_idempotent (df : Pd.DataFrame) :
  drop_ignored (drop_ignored df) = drop_ignored df.
Proof.
  unfold drop_ignored at 1.
  destruct (filter _ (Pd.columns (drop_ignored df))) as [|c l] eqn:E; [done |].
  assert (c ∈ filter (λ c, is_ignored_column c = true) (Pd.columns (drop_ignored df)))
    as [Hi Hc]%list_elem_of_filter by (rewrite E; left).
  by destruct (ignored_not_in_columns df c Hi).
Qed.

Lemma well_formed_drop_ignored (df : Pd.DataFrame) :
  well_formed df → well_formed (drop_ignored df).
Proof.
  intros [Hidx Hrows]. unfold drop_ignored.
  destruct (filter _ (Pd.columns df)) as [|c l]; [done |].
  split.
  - simpl. by rewrite length_fmap.
  - simpl. apply Forall_fmap. eapply Forall_impl; [exact Hrows |].
    intros r Hr. simpl in Hr.
    exact (drop_row_length (λ c0, negb (bool_decide (c0 ∈ c :: l))) _ r Hr).
Qed.

(** X7: a well-formed table stays well formed through the loader and the
    drop: one label per row, one cell per column in every row. *)
Theorem X7_pipeline_keeps_table_well_formed
    (w : World) (path : string) (N : Z) (df0 df : Pd.DataFrame) out :
  read_csv w path = inr df0 →
  well_formed df0 →
  load_data w path N = (out, Ok df) →
  well_formed df ∧ well_formed (drop_ignored df).
Proof.
  intros Hread [Hidx Hrows] Hload.
  destruct (load_data_Ok_inv _ _ _ _ _ Hload) as (-> & df1 & Hread' & Htime & _).
  assert (df1 = df0) as -> by congruence.
  rewrite (load_data_ok w path N df0 Hread Htime) in Hload. injection Hload as <-.
  assert (well_formed (if negb (N =? 0)%Z && (1 <? N)%Z
                       then Pd.reset_index (Pd.iloc_step df0 (Z.to_nat N)) else df0))
    as Hwf.
  { destruct (negb (N =? 0)%Z && (1 <? N)%Z); [| done]. split.
    - simpl. by rewrite length_fmap, length_seq.
    - simpl. rewrite Forall_forall in Hrows. apply Forall_forall.
      intros r Hr%slice_step_elem. by apply Hrows. }
  split; [done | by apply well_formed_drop_ignored].
Qed.

Lemma X7_pipeline_keeps_table_well_formed_witness :
  let w := world_reading (inr recording_df) in
  read_csv w "recording.csv" = inr recording_df ∧
  well_formed recording_df ∧
  (∃ df, load_data w "recording.csv" 2 = ([], Ok df) ∧
         well_formed df ∧ well_formed (drop_ignored df)).
Proof.
  intros w.
  assert (well_formed recording_df) as H2 by (split; [reflexivity | repeat constructor]).
  split; [reflexivity |]. split; [exact H2 |].
  eexists. split; [reflexivity |].
  exact (X7_pipeline_keeps_table_well_formed w "recording.csv" 2 recording_df _ []
           eq_refl H2 eq_refl).
Defined.

(** ** The normaliser on every series *)

(** X8: whatever the series, [minmax_normalize] returns a float64 series of
    the same length, and a missing value of the input is a missing value of
    the result, at the same place. *)
Theorem X8_normalize_keeps_shape (s : Pd.Series) :
  length (minmax_normalize s) = length s ∧
  (∀ i, s !! i = Some Pd.nan → minmax_normalize s !! i = Some Pd.nan) ∧
  (∀ c, c ∈ minmax_normalize s → Pd.is_int c = false).
Proof.
  split_and!.
  - apply length_minmax_normalize.
  - intros i. apply minmax_normalize_nan.
  - destruct (minmax_normalize_cells s) as (g & -> & _).
    by intros c (c0 & -> & _)%list_elem_of_fmap.
Qed.

(** ** The figure builder on every table *)



(** X12: in a figure [build_figure] returns there is one trace per channel
    given, every trace has the [Time] column as its x, and every trace has
    as many y values as x values, one per row of the table. *)
Theorem X12_traces_aligned_with_time
    (df : Pd.DataFrame) (eeg ecg : list string) (cm : option string) (norm : bool)
    out (fig : Figure) :
  build_figure df eeg ecg cm norm = (out, Ok fig) →
  length (traces fig) = (length eeg + length ecg + length (option_list cm))%nat ∧
  ∀ t, t ∈ traces fig →
    Pd.getitem df "Time" = ([], Ok (x t)) ∧
    length (x t) = length (Pd.rows df) ∧
    length (y t) = length (x t).
Proof.
  intros H.
  destruct (build_figure_cases df eeg ecg cm norm) as [[Hall E] | (ch & _ & _ & E)];
    [| congruence].
  rewrite E in H. injection H as <- <-.
  assert ("Time" ∈ Pd.columns df) as Ht by (apply Hall; left).
  split.
  { cbn [traces figure_of]. rewrite !length_app, !length_fmap. lia. }
  assert (∀ s : list Pd.cell,
            length (if norm then minmax_normalize s else s) = length s) as Hfin
    by (intros s; destruct norm; [apply length_minmax_normalize | done]).
  intros t Ht'. cbn [traces figure_of] in Ht'.
  apply elem_of_app in Ht' as [Ht' | Ht']; [| apply elem_of_app in Ht' as [Ht' | Ht']];
    apply list_elem_of_fmap in Ht' as (ch & -> & Hch); cbn [x y];
    (split; [by apply getitem_present |]);
    rewrite Hfin, (length_column_of df "Time" Ht);
    (split; [done |]).
  - apply length_column_of, Hall. right. apply elem_of_app. by left.
  - unfold Pd.mul. rewrite length_fmap.
    apply length_column_of, Hall. right. apply elem_of_app. right. apply elem_of_app. by left.
  - apply length_column_of, Hall. right. apply elem_of_app. right. apply elem_of_app. by right.
Qed.

Lemma X12_traces_aligned_with_time_witness :
  ∃ fig,
    build_figure recording_df ["Fz"; "Cz"] ["X1:LEOG"] (Some "CM") true = ([], Ok fig) ∧
    length (traces fig) = 4%nat ∧
    ∀ t, t ∈ traces fig →
      Pd.getitem recording_df "Time" = ([], Ok (x t)) ∧
      length (x t) = length (Pd.rows recording_df) ∧
      length (y t) = length (x t).
Proof.
  eexists. split; [reflexivity |].
  exact (X12_traces_aligned_with_time recording_df ["Fz"; "Cz"] ["X1:LEOG"] (Some "CM")
           true [] _ eq_refl).
Defined.

(** X13: the legend names and the axes of the traces: EEG channels come
    first, on row 1 and the primary axis, under their own name; ECG channels
    follow on row 1 and the secondary axis, with the suffix [ (µV)]; the
    reference comes last, on row 2, under its own name; when normalising,
    every name carries the suffix [ (norm)] instead. *)
Theorem X13_trace_names_and_axes
    (df : Pd.DataFrame) (eeg ecg : list string) (cm : option string) (norm : bool)
    out (fig : Figure) :
  build_figure df eeg ecg cm norm = (out, Ok fig) →
  (λ t, (name t, row t, secondary_y t)) <$> traces fig =
    ((λ ch, (if norm then ch +:+ " (norm)" else ch, 1%nat, false)) <$> eeg)
    ++ ((λ ch, (if norm then ch +:+ " (norm)" else ch +:+ " (µV)", 1%nat, true)) <$> ecg)
    ++ ((λ ch, (if norm then ch +:+ " (norm)" else ch, 2%nat, false)) <$> option_list cm).
Proof.
  intros H.
  destruct (build_figure_cases df eeg ecg cm norm) as [[Hall E] | (ch & _ & _ & E)];
    [| congruence].
  rewrite E in H. injection H as <- <-.
  cbn [traces figure_of]. rewrite !fmap_app, <- !list_fmap_compose. done.
Qed.

Lemma X13_trace_names_and_axes_witness :
  ∃ fig,
    build_figure recording_df ["Fz"; "Cz"] ["X1:LEOG"] (Some "CM") false = ([], Ok fig) ∧
    (λ t, (name t, row t, secondary_y t)) <$> traces fig =
      [("Fz", 1%nat, false); ("Cz", 1%nat, false);
       ("X1:LEOG (µV)", 1%nat, true); ("CM", 2%nat, false)].
Proof.
  eexists. split; [reflexivity |].
  exact (X13_trace_names_and_axes recording_df ["Fz"; "Cz"] ["X1:LEOG"] (Some "CM")
           false [] _ eq_refl).
Defined.

(** ** The run: which way it ends *)

Lemma time_survives_drop (df : Pd.DataFrame) :
  "Time" ∈ Pd.columns df → "Time" ∈ Pd.columns (drop_ignored df).
Proof. apply kept_in_columns. vm_compute. reflexivity. Qed.

Lemma detected_are_columns (df : Pd.DataFrame) (ie ic : bool) (eeg ecg : list string)
    (cm : option string) :
  detect_channels df ie ic = (eeg, ecg, cm) →
  ∀ ch, ch ∈ eeg ++ ecg ++ option_list cm → ch ∈ Pd.columns df.
Proof.
  intros E ch Hch. apply (detected_not_ignored df ie ic ch). by rewrite E.
Qed.

Lemma let_pair_id {A} (m : Py A) : (let '(out, r) := m in (out, r)) = m.
Proof. by destruct m. Qed.

(** Once the table is loaded and a channel is found, the run is the figure
    builder followed by the export and the viewer. *)
Lemma main_after_load (w : World) (args : Args) (df : Pd.DataFrame)
    (eeg ecg : list string) (cm : option string) :
  path_exists w (path_str w (csv args)) = true →
  load_data w (path_str w (csv args)) (downsample args) = ([], Ok df) →
  detect_channels (drop_ignored df) (negb (no_ecg args)) (negb (no_cm args)) = (eeg, ecg, cm) →
  (eeg, ecg, cm) ≠ ([], [], None) →
  main w args
  = py_bind (finish_run w args) (build_figure (drop_ignored df) eeg ecg cm (normalize args)).
Proof.
  intros Hp Hload Hdet Hne.
  unfold main. cbv zeta. rewrite Hp, Hload.
  unfold mbind, Py_bind. cbn -[detect_channels drop_ignored build_figure finish_run].
  rewrite Hdet.
  destruct eeg as [|e1 eeg], ecg as [|e2 ecg], cm as [c|]; try done.
  all: cbn -[build_figure drop_ignored finish_run].
  all: destruct (build_figure _ _ _ _ _) as [o [fig | e | z]]; cbn [py_bind]; try done.
  all: unfold finish_run, mbind, Py_bind.
  all: by rewrite !let_pair_id.
Qed.

(** The columns [main] hands to [build_figure] are columns of the table it
    hands over. *)
Lemma main_columns_exist (w : World) (path : string) (N : Z) (ie ic : bool)
    out (df : Pd.DataFrame) (eeg ecg : list string) (cm : option string) :
  load_data w path N = (out, Ok df) →
  detect_channels (drop_ignored df) ie ic = (eeg, ecg, cm) →
  ∀ ch, ch ∈ "Time" :: eeg ++ ecg ++ option_list cm → ch ∈ Pd.columns (drop_ignored df).
Proof.
  intros Hload Hdet ch Hch.
  apply elem_of_cons in Hch as [-> | Hch]; [| by eapply detected_are_columns].
  destruct (load_data_Ok_inv _ _ _ _ _ Hload) as (_ & df0 & _ & Ht & Hc).
  apply time_survives_drop. by rewrite Hc.
Qed.

(** How the export and the viewer end: normally, or with the exception of
    a failed export. *)
Lemma finish_run_cases (w : World) (args : Args) (fig : Figure) :
  let hint :=
    match show w fig with
    | Some e => [Print Stderr [PStr ("Unable to open viewer automatically: " +:+ exn_msg e)];
                 Print Stdout [PStr "Tip: open the --html-out file in your browser."]]
    | None => []
    end in
  match html_out args with
  | None => finish_run w args fig = (hint, Ok tt)
  | Some out =>
      if bool_decide (out = "") then finish_run w args fig = (hint, Ok tt)
      else
        match write_html w fig (path_str w out) with
        | Some e => finish_run w args fig = ([], Raise e)
        | None =>
            finish_run w args fig
            = (Print Stdout [PStr ("Saved interactive HTML to: "
                                   +:+ resolve w (path_str w out))] :: hint, Ok tt)
        end
  end.
Proof.
  unfold finish_run. destruct (html_out args) as [out|].
  - destruct (bool_decide (out = "")).
    + by destruct (show w fig).
    + destruct (write_html w fig (path_str w out)); [done |]. by destruct (show w fig).
  - by destruct (show w fig).
Qed.

(** X14: the run never asks for a column that is not there.  Once the table
    is loaded, [Time] and every channel [detect_channels] finds are columns
    of the table left by the drop, so that no [KeyError] leaves
    [build_figure]. *)
Theorem X14_main_reads_only_existing_columns
    (w : World) (args : Args) out (df : Pd.DataFrame)
    (eeg ecg : list string) (cm : option string) :
  load_data w (path_str w (csv args)) (downsample args) = (out, Ok df) →
  detect_channels (drop_ignored df) (negb (no_ecg args)) (negb (no_cm args)) = (eeg, ecg, cm) →
  (∀ ch, ch ∈ "Time" :: eeg ++ ecg ++ option_list cm → ch ∈ Pd.columns (drop_ignored df)) ∧
  (∀ o e, build_figure (drop_ignored df) eeg ecg cm (normalize args) = (o, Raise e) →
          exn_class e ≠ "KeyError").
Proof.
  intros Hload Hdet.
  pose proof (main_columns_exist _ _ _ _ _ _ _ _ _ _ Hload Hdet) as Hall.
  split; [done |]. intros o e H.
  destruct (build_figure_cases (drop_ignored df) eeg ecg cm (normalize args))
    as [[_ E] | (ch & Hin & Hch & _)]; [by rewrite E in H |].
  destruct Hch. by apply Hall.
Qed.

Lemma X14_main_reads_only_existing_columns_witness :
  let w := world_reading (inr recording_df) in
  load_data w (path_str w (csv default_args)) (downsample default_args)
  = ([], Ok recording_df) ∧
  detect_channels (drop_ignored recording_df) true true
  = (["Fz"; "Cz"], ["X1:LEOG"], Some "CM") ∧
  (∀ ch, ch ∈ ["Time"; "Fz"; "Cz"; "X1:LEOG"; "CM"] →
         ch ∈ Pd.columns (drop_ignored recording_df)) ∧
  (∀ o e, build_figure (drop_ignored recording_df) ["Fz"; "Cz"] ["X1:LEOG"] (Some "CM") false
          = (o, Raise e) →
          exn_class e ≠ "KeyError").
Proof.
  intros w.
  assert (detect_channels (drop_ignored recording_df)
            (negb (no_ecg default_args)) (negb (no_cm default_args))
          = (["Fz"; "Cz"], ["X1:LEOG"], Some "CM")) as H2 by (vm_compute; reflexivity).
  split; [reflexivity |]. split; [exact H2 |].
  exact (X14_main_reads_only_existing_columns w default_args [] recording_df
           ["Fz"; "Cz"] ["X1:LEOG"] (Some "CM") eq_refl H2).
Defined.

(** X16: a viewer that cannot be opened does not fail the run.  With a
    table loaded, a channel found, the figure built and no export asked
    for, the run ends normally with exit status 0; when [fig.show()] raises,
    the two lines of the hint are all that is printed after the figure is
    built. *)
Theorem X16_viewer_failure_is_not_fatal
    (w : World) (args : Args) (df : Pd.DataFrame)
    (eeg ecg : list string) (cm : option string) o (fig : Figure) :
  path_exists w (path_str w (csv args)) = true →
  load_data w (path_str w (csv args)) (downsample args) = ([], Ok df) →
  detect_channels (drop_ignored df) (negb (no_ecg args)) (negb (no_cm args)) = (eeg, ecg, cm) →
  (eeg, ecg, cm) ≠ ([], [], None) →
  build_figure (drop_ignored df) eeg ecg cm (normalize args) = (o, Ok fig) →
  html_out args = None →
  main w args =
    (o ++ match show w fig with
          | Some e =>
              [Print Stderr [PStr ("Unable to open viewer automatically: " +:+ exn_msg e)];
               Print Stdout [PStr "Tip: open the --html-out file in your browser."]]
          | None => []
          end, Ok tt) ∧
  exit_status (main w args).2 = 0%Z.
Proof.
  intros Hp Hload Hdet Hne Hfig Hout.
  rewrite (main_after_load w args df eeg ecg cm Hp Hload Hdet Hne), Hfig.
  pose proof (finish_run_cases w args fig) as Hf.
  simpl in Hf. rewrite Hout in Hf. cbn [py_bind]. by rewrite Hf.
Qed.

Lemma X16_viewer_failure_is_not_fatal_witness :
  let w := world_headless recording_df in
  ∃ fig,
    path_exists w (path_str w (csv default_args)) = true ∧
    load_data w (path_str w (csv default_args)) (downsample default_args)
    = ([], Ok recording_df) ∧
    detect_channels (drop_ignored recording_df) true true
    = (["Fz"; "Cz"], ["X1:LEOG"], Some "CM") ∧
    (["Fz"; "Cz"], ["X1:LEOG"], Some "CM") ≠ ([], [], None) ∧
    build_figure (drop_ignored recording_df) ["Fz"; "Cz"] ["X1:LEOG"] (Some "CM") false
    = ([], Ok fig) ∧
    html_out default_args = None ∧
    main w default_args =
      ([Print Stderr [PStr "Unable to open viewer automatically: no display"];
        Print Stdout [PStr "Tip: open the --html-out file in your browser."]], Ok tt) ∧
    exit_status (main w default_args).2 = 0%Z.
Proof.
  intros w. eexists.
  assert (detect_channels (drop_ignored recording_df)
            (negb (no_ecg default_args)) (negb (no_cm default_args))
          = (["Fz"; "Cz"], ["X1:LEOG"], Some "CM")) as H3 by (vm_compute; reflexivity).
  assert ((["Fz"; "Cz"], ["X1:LEOG"], Some "CM")
          ≠ (([] : list string), ([] : list string), (None : option string)))
    as H4 by discriminate.
  split; [reflexivity |]. split; [reflexivity |]. split; [exact H3 |].
  split; [exact H4 |]. split; [reflexivity |]. split; [reflexivity |].
  exact (X16_viewer_failure_is_not_fatal w default_args recording_df
           ["Fz"; "Cz"] ["X1:LEOG"] (Some "CM") [] _ eq_refl eq_refl H3 H4 eq_refl eq_refl).
Defined.

(** X17: the export comes before the viewer.  With a table loaded, a
    channel found, the figure built and a non-empty export path, a
    [write_html] that raises ends the run with that exception and exit
    status 1, nothing more being printed; a [write_html] that succeeds is
    followed by the line naming the resolved path, printed before anything
    the viewer causes, and the run ends normally. *)
Theorem X17_export_before_viewer
    (w : World) (args : Args) (df : Pd.DataFrame)
    (eeg ecg : list string) (cm : option string) (out : string) o (fig : Figure) :
  path_exists w (path_str w (csv args)) = true →
  load_data w (path_str w (csv args)) (downsample args) = ([], Ok df) →
  detect_channels (drop_ignored df) (negb (no_ecg args)) (negb (no_cm args)) = (eeg, ecg, cm) →
  (eeg, ecg, cm) ≠ ([], [], None) →
  build_figure (drop_ignored df) eeg ecg cm (normalize args) = (o, Ok fig) →
  html_out args = Some out →
  out ≠ "" →
  match write_html w fig (path_str w out) with
  | Some e => main w args = (o, Raise e) ∧ exit_status (main w args).2 = 1%Z
  | None =>
      ∃ hint,
        main w args =
          (o ++ Print Stdout [PStr ("Saved interactive HTML to: "
                                    +:+ resolve w (path_str w out))] :: hint, Ok tt) ∧
        (hint = [] ∨ ∃ e, show w fig = Some e)
  end.
Proof.
  intros Hp Hload Hdet Hne Hfig Hout Hempty.
  rewrite (main_after_load w args df eeg ecg cm Hp Hload Hdet Hne), Hfig.
  pose proof (finish_run_cases w args fig) as Hf.
  simpl in Hf. rewrite Hout in Hf. rewrite bool_decide_eq_false_2 in Hf by done.
  cbn [py_bind].
  destruct (write_html w fig (path_str w out)) as [e|].
  - rewrite Hf. simpl. by rewrite app_nil_r.
  - eexists. rewrite Hf. split; [done |].
    destruct (show w fig) as [e|]; [right; by exists e | by left].
Qed.

Lemma X17_export_before_viewer_witness :
  let w := world_headless recording_df in
  ∃ fig,
    path_exists w (path_str w (csv export_args)) = true ∧
    load_data w (path_str w (csv export_args)) (downsample export_args)
    = ([], Ok recording_df) ∧
    detect_channels (drop_ignored recording_df) true true
    = (["Fz"; "Cz"], ["X1:LEOG"], Some "CM") ∧
    (["Fz"; "Cz"], ["X1:LEOG"], Some "CM") ≠ ([], [], None) ∧
    build_figure (drop_ignored recording_df) ["Fz"; "Cz"] ["X1:LEOG"] (Some "CM") false
    = ([], Ok fig) ∧
    html_out export_args = Some "plot.html" ∧
    "plot.html" ≠ "" ∧
    match write_html w fig (path_str w "plot.html") with
    | Some e => main w export_args = ([], Raise e) ∧
                exit_status (main w export_args).2 = 1%Z
    | None =>
        ∃ hint,
          main w export_args =
            ([] ++ Print Stdout [PStr ("Saved interactive HTML to: "
                                       +:+ resolve w (path_str w "plot.html"))] :: hint,
             Ok tt) ∧
          (hint = [] ∨ ∃ e, show w fig = Some e)
    end.
Proof.
  intros w. eexists.
  assert (detect_channels (drop_ignored recording_df)
            (negb (no_ecg export_args)) (negb (no_cm export_args))
          = (["Fz"; "Cz"], ["X1:LEOG"], Some "CM")) as H3 by (vm_compute; reflexivity).
  assert ((["Fz"; "Cz"], ["X1:LEOG"], Some "CM")
          ≠ (([] : list string), ([] : list string), (None : option string)))
    as H4 by discriminate.
  assert ("plot.html" ≠ "") as H6 by discriminate.
  split; [reflexivity |]. split; [reflexivity |]. split; [exact H3 |].
  split; [exact H4 |]. split; [reflexivity |]. split; [reflexivity |]. split; [exact H6 |].
  exact (X17_export_before_viewer w export_args recording_df
           ["Fz"; "Cz"] ["X1:LEOG"] (Some "CM") "plot.html" [] _
           eq_refl eq_refl H3 H4 eq_refl eq_refl H6).
Defined.

(** X18: an empty export path exports nothing: the run is the one without
    [--html-out]. *)
Theorem X18_empty_export_path_exports_nothing (w : World) (args : Args) :
  html_out args = Some "" →
  main w args =
  main w {| csv := csv args; html_out := None; downsample := downsample args;
            no_ecg := no_ecg args; no_cm := no_cm args; normalize := normalize args |}.
Proof. destruct args as [c h d e m n]. simpl. intros ->. reflexivity. Qed.

Lemma X18_empty_export_path_exports_nothing_witness :
  let args := {| csv := "recording.csv"; html_out := Some ""; downsample := 1;
                 no_ecg := false; no_cm := false; normalize := false |} in
  html_out args = Some "" ∧
  main (world_read_only recording_df) args = ([], Ok tt).
Proof.
  intros args. split; [reflexivity |].
  rewrite (X18_empty_export_path_exports_nothing (world_read_only recording_df) args eq_refl).
  vm_compute. reflexivity.
Defined.

(** X19: a group that is switched off leaves its axis empty: without ECG no
    trace is on the secondary axis, without the reference no trace is on
    row 2. *)
Theorem X19_switched_off_groups_leave_no_trace
    (df : Pd.DataFrame) (include_ecg include_cm norm : bool)
    (eeg ecg : list string) (cm : option string) out (fig : Figure) :
  detect_channels df include_ecg include_cm = (eeg, ecg, cm) →
  build_figure df eeg ecg cm norm = (out, Ok fig) →
  (include_ecg = false → ∀ t, t ∈ traces fig → secondary_y t = false) ∧
  (include_cm = false → ∀ t, t ∈ traces fig → row t = 1%nat).
Proof.
  intros Hdet H.
  destruct (build_figure_cases df eeg ecg cm norm) as [[_ E] | (ch & _ & _ & E)];
    [| congruence].
  rewrite E in H. injection H as <- <-.
  pose proof (detect_channels_ecg df include_ecg include_cm) as Hecg.
  pose proof (detect_channels_cm df include_ecg include_cm) as Hcm.
  rewrite Hdet in Hecg, Hcm. simpl in Hecg, Hcm.
  split.
  - intros ->. subst ecg. intros t Ht. cbn [traces figure_of] in Ht.
    apply elem_of_app in Ht as [Ht | [Ht | Ht]%elem_of_app];
      apply list_elem_of_fmap in Ht as (ch & -> & Hch); try done.
    by apply elem_of_nil in Hch.
  - intros ->. subst cm. intros t Ht. cbn [traces figure_of] in Ht.
    apply elem_of_app in Ht as [Ht | [Ht | Ht]%elem_of_app];
      apply list_elem_of_fmap in Ht as (ch & -> & Hch); try done.
    by apply elem_of_nil in Hch.
Qed.

Lemma X19_switched_off_groups_leave_no_trace_witness :
  ∃ fig,
    detect_channels recording_df false false = (["Fz"; "Cz"], [], None) ∧
    build_figure recording_df ["Fz"; "Cz"] [] None false = ([], Ok fig) ∧
    (false = false → ∀ t, t ∈ traces fig → secondary_y t = false) ∧
    (false = false → ∀ t, t ∈ traces fig → row t = 1%nat).
Proof.
  eexists.
  assert (detect_channels recording_df false false = (["Fz"; "Cz"], [], None)) as H1
    by (vm_compute; reflexivity).
  split; [exact H1 |]. split; [reflexivity |].
  exact (X19_switched_off_groups_leave_no_trace recording_df false false false
           ["Fz"; "Cz"] [] None [] _ H1 eq_refl).
Defined.

(** X20: downsampling and reading a column commute: the column [ch] of the
    table loaded with stride [N] holds, at position [k], what the column
    [ch] of the table read holds at position [k*N]. *)
Theorem X20_downsampled_column_is_every_Nth_value
    (w : World) (path : string) (df df' : Pd.DataFrame) (N : Z) (ch : string) :
  read_csv w path = inr df →
  (1 < N)%Z →
  load_data w path N = ([], Ok df') →
  ch ∈ Pd.columns df →
  ∃ s s',
    Pd.getitem df ch = ([], Ok s) ∧
    Pd.getitem df' ch = ([], Ok s') ∧
    ∀ k : nat, s' !! k = s !! (k * Z.to_nat N)%nat.
Proof.
  intros Hread HN Hload Hch.
  destruct (load_data_Ok_inv _ _ _ _ _ Hload) as (_ & df1 & Hread' & Htime & Hcols).
  assert (df1 = df) as -> by congruence.
  rewrite (load_data_ok w path N df Hread Htime) in Hload.
  replace (negb (N =? 0)%Z && (1 <? N)%Z) with true in Hload
    by (symmetry; apply andb_true_iff; split;
        [apply negb_true_iff, Z.eqb_neq | apply Z.ltb_lt]; lia).
  injection Hload as <-.
  exists (column_of df ch), (column_of (Pd.reset_index (Pd.iloc_step df (Z.to_nat N))) ch).
  split; [by apply getitem_present |]. split; [by apply getitem_present |].
  intros k. unfold column_of, Pd.get_loc. cbn [Pd.reset_index Pd.iloc_step Pd.columns Pd.rows].
  destruct (list_find (λ c, c = ch) (Pd.columns df)) as [[j c]|]; [| done].
  cbn [fmap option_fmap option_map fst].
  rewrite !list_lookup_fmap. by rewrite slice_step_lookup by lia.
Qed.

Lemma X20_downsampled_column_is_every_Nth_value_witness :
  let w := world_reading (inr recording_df) in
  ∃ df',
    read_csv w "recording.csv" = inr recording_df ∧
    (1 < 2)%Z ∧
    load_data w "recording.csv" 2 = ([], Ok df') ∧
    "Fz" ∈ Pd.columns recording_df ∧
    ∃ s s',
      Pd.getitem recording_df "Fz" = ([], Ok s) ∧
      Pd.getitem df' "Fz" = ([], Ok s') ∧
      ∀ k : nat, s' !! k = s !! (k * Z.to_nat 2)%nat.
Proof.
  intros w. eexists.
  assert (1 < 2)%Z as H2 by lia.
  assert ("Fz" ∈ Pd.columns recording_df) as H4 by (right; left).
  split; [reflexivity |]. split; [exact H2 |]. split; [reflexivity |]. split; [exact H4 |].
  exact (X20_downsampled_column_is_every_Nth_value w "recording.csv" recording_df _ 2 "Fz"
           eq_refl H2 eq_refl H4).
Defined.

(** X21: a table that cannot be read is reported once and the exception is
    passed on unchanged: the run prints the single line [Failed to read CSV:]
    with the message of the exception on stderr, nothing else, and ends with
    the very exception [read_csv] raised, whatever the stride and the
    flags. *)
Theorem X21_read_failure_reported_and_reraised (w : World) (args : Args) (e : exn) :
  path_exists w (path_str w (csv args)) = true →
  read_csv w (path_str w (csv args)) = inl e →
  load_data w (path_str w (csv args)) (downsample args)
  = ([Print Stderr [PStr ("Failed to read CSV: " +:+ exn_msg e)]], Raise e) ∧
  main w args = ([Print Stderr [PStr ("Failed to read CSV: " +:+ exn_msg e)]], Raise e).
Proof.
  intros Hp Hread.
  pose proof (load_data_read_error w _ (downsample args) e Hread) as Hload.
  split; [done |]. by apply main_load_raises.
Qed.

Lemma X21_read_failure_reported_and_reraised_witness :
  let e := Exn "ParserError" "Error tokenizing data" in
  let w := world_reading (inl e) in
  path_exists w (path_str w (csv default_args)) = true ∧
  read_csv w (path_str w (csv default_args)) = inl e ∧
  main w default_args
  = ([Print Stderr [PStr "Failed to read CSV: Error tokenizing data"]], Raise e).
Proof.
  intros e w. split; [reflexivity |]. split; [reflexivity |].
  exact (proj2 (X21_read_failure_reported_and_reraised w default_args e eq_refl eq_refl)).
Defined.

(** X22: with a missing input path nothing is read: the run prints the one
    line [CSV not found:] with the path on stderr and exits with 1, and it is
    the same run whatever [read_csv], the export and the viewer would have
    done. *)
Theorem X22_missing_path_reads_nothing (w w' : World) (args : Args) :
  path_exists w (path_str w (csv args)) = false →
  path_str w' (csv args) = path_str w (csv args) →
  path_exists w' (path_str w (csv args)) = false →
  main w args = ([Print Stderr [PStr ("CSV not found: " +:+ path_str w (csv args))]],
                 SysExit 1) ∧
  main w' args = main w args.
Proof.
  intros Hp Hstr Hp'. rewrite (main_missing_path w args Hp). split; [done |].
  rewrite <- Hstr in Hp'. rewrite (main_missing_path w' args Hp'). by rewrite Hstr.
Qed.

Lemma X22_missing_path_reads_nothing_witness :
  let w := world_without_file in
  let w' := {| path_str := λ p, p; path_exists := λ _, false;
               read_csv := λ _, inr recording_df; resolve := λ p, p;
               write_html := λ _ _, None; show := λ _, None |} in
  path_exists w (path_str w (csv default_args)) = false ∧
  path_str w' (csv default_args) = path_str w (csv default_args) ∧
  path_exists w' (path_str w (csv default_args)) = false ∧
  main w default_args = ([Print Stderr [PStr "CSV not found: recording.csv"]], SysExit 1) ∧
  main w' default_args = main w default_args.
Proof.
  intros w w'. split; [reflexivity |]. split; [reflexivity |]. split; [reflexivity |].
  exact (X22_missing_path_reads_nothing w w' default_args eq_refl eq_refl eq_refl).
Defined.
